(** * Chat page with document context: the send handler and the upload handler

    A shallow embedding of [src/pages/Index.tsx]: the React component state,
    the drop-zone callback [onDrop], and the [handleSend] handler with its
    inner [makeRequest] closure and its retry loop.

    Effects are explicit.  A handler is a computation in a small
    state-and-exception monad over a [World]: the React store together with
    the trace of everything the handler did to the outside (toasts, network
    calls, timer waits, console output), in the order it did them.  The
    network is a parameter: a deterministic endpoint that answers the k-th
    call of one handler run. *)

From Stdlib Require Import String Ascii List ZArith Lia Bool Arith.
From Stdlib Require Import DecimalString DecimalPos DecimalZ.
From Equations Require Import Equations.
Import ListNotations.

Set Warnings "-register-all".
Open Scope list_scope.
Open Scope string_scope.

(* ===================================================================== *)
(** ** JavaScript strings *)
(* ===================================================================== *)

(** A [string] is read as a sequence of UTF-16 code units below 256. *)

Definition nl : string := String "010"%char EmptyString.
Definition dq : string := String "034"%char EmptyString.

(** ECMAScript WhiteSpace and LineTerminator code units below 256:
    TAB, LF, VT, FF, CR, SP and NBSP. *)
Definition is_white_space (c : ascii) : bool :=
  let n := nat_of_ascii c in
  ((9 <=? n)%nat && (n <=? 13)%nat) || (n =? 32)%nat || (n =? 160)%nat.

Fixpoint trimStart (s : string) : string :=
  match s with
  | EmptyString => EmptyString
  | String c rest => if is_white_space c then trimStart rest else s
  end.

Fixpoint trimEnd (s : string) : string :=
  match s with
  | EmptyString => EmptyString
  | String c rest =>
      match trimEnd rest with
      | EmptyString => if is_white_space c then EmptyString
                       else String c EmptyString
      | kept => String c kept
      end
  end.

(** [String.prototype.trim]. *)
Definition trim (s : string) : string := trimEnd (trimStart s).

Fixpoint all_white_space (s : string) : bool :=
  match s with
  | EmptyString => true
  | String c rest => is_white_space c && all_white_space rest
  end.

(** [Number.prototype.toString] on an integral number. *)
Definition string_of_Z (n : Z) : string := NilZero.string_of_int (Z.to_int n).

(** [t] occurs in [s] as a contiguous substring. *)
Definition contains (t s : string) : Prop :=
  exists pre post, s = pre ++ t ++ post.

(** Truthiness of a string: only the empty string is falsy. *)
Definition nonempty (s : string) : bool :=
  match s with EmptyString => false | _ => true end.

(* ===================================================================== *)
(** ** JavaScript values, as [response.json()] produces them *)
(* ===================================================================== *)

(** Numbers are kept integral; in every path below a number is only tested
    for truthiness or printed. An object is its list of own properties, read
    by first match. *)
Inductive Value : Type :=
| VUndefined
| VNull
| VBool (b : bool)
| VNum (n : Z)
| VStr (s : string)
| VArr (items : list Value)
| VObj (props : list (string * Value)).

(** ToBoolean. *)
Definition truthy (v : Value) : bool :=
  match v with
  | VUndefined | VNull => false
  | VBool b => b
  | VNum n => negb (n =? 0)%Z
  | VStr s => nonempty s
  | VArr _ | VObj _ => true
  end.

(** ToString, for objects that keep the built-in [toString] and [valueOf]
    and for integers below 10^21 in absolute value: an array joins its
    elements with commas (null and undefined print as nothing), a plain
    object prints as [[object Object]]. Outside that range JavaScript
    prints an exponent, or raises a TypeError for an object that shadows
    [toString]; only the text of an error built from such a provider
    message depends on it. *)
Fixpoint toString (v : Value) : string :=
  match v with
  | VUndefined => "undefined"
  | VNull => "null"
  | VBool true => "true"
  | VBool false => "false"
  | VNum n => string_of_Z n
  | VStr s => s
  | VArr items =>
      String.concat ","
        (map (fun x => match x with
                       | VUndefined | VNull => EmptyString
                       | _ => toString x
                       end) items)
  | VObj _ => "[object Object]"
  end.

(** Errors. Everything the runtime or the source raises is an [Error]
    instance with a message; a mocked collaborator may also reject with a
    value that is not an [Error]. *)
Inductive ErrorKind : Type := PlainError | TypeError | SyntaxError.

Inductive Thrown : Type :=
| JsError (kind : ErrorKind) (message : string)
| NonError (v : Value).

Inductive Result (A : Type) : Type :=
| Ok (a : A)
| Throw (e : Thrown).
Arguments Ok {A} a.
Arguments Throw {A} e.

(** A promise that has settled. *)
Inductive Settled (A : Type) : Type :=
| Resolved (a : A)
| Rejected (e : Thrown).
Arguments Resolved {A} a.
Arguments Rejected {A} e.

(** The message of the TypeError raised by reading property [key] of
    undefined or null (V8 wording). *)
Definition cannot_read (base key : string) : string :=
  "Cannot read properties of " ++ base ++ " (reading '" ++ key ++ "')".

Fixpoint own_property (key : string) (props : list (string * Value)) : Value :=
  match props with
  | [] => VUndefined
  | (k, v) :: rest => if (k =? key)%string then v else own_property key rest
  end.

(** [v.key] for the identifiers the source reads ([candidates], [content],
    [parts], [text], [error], [message]); none of them is defined on a
    built-in prototype, so only a plain object can hold one. *)
Definition get_prop (v : Value) (key : string) : Result Value :=
  match v with
  | VUndefined => Throw (JsError TypeError (cannot_read "undefined" key))
  | VNull => Throw (JsError TypeError (cannot_read "null" key))
  | VObj props => Ok (own_property key props)
  | _ => Ok VUndefined
  end.

(** [v[i]] for a numeric literal [i]. *)
Definition get_index (v : Value) (i : nat) : Result Value :=
  let key := string_of_Z (Z.of_nat i) in
  match v with
  | VUndefined => Throw (JsError TypeError (cannot_read "undefined" key))
  | VNull => Throw (JsError TypeError (cannot_read "null" key))
  | VArr items => Ok (nth i items VUndefined)
  | VStr s => Ok (match String.get i s with
                  | Some c => VStr (String c EmptyString)
                  | None => VUndefined
                  end)
  | VObj props => Ok (own_property key props)
  | _ => Ok VUndefined
  end.

Definition and_then {A B} (r : Result A) (k : A -> Result B) : Result B :=
  match r with
  | Ok a => k a
  | Throw e => Throw e
  end.

(** [data.candidates[0].content.parts[0].text] (line 168). *)
Definition first_text (data : Value) : Result Value :=
  and_then (get_prop data "candidates") (fun candidates =>
  and_then (get_index candidates 0) (fun candidate =>
  and_then (get_prop candidate "content") (fun content =>
  and_then (get_prop content "parts") (fun parts =>
  and_then (get_index parts 0) (fun part =>
  get_prop part "text"))))).

(** [errorData.error?.message] (line 135). *)
Definition provider_message (errorData : Value) : Result Value :=
  and_then (get_prop errorData "error") (fun error =>
  match error with
  | VUndefined | VNull => Ok VUndefined
  | _ => get_prop error "message"
  end).

(** [a || b]. *)
Definition or_else (a b : Value) : Value := if truthy a then a else b.

(** [error instanceof Error && error.message === m] . *)
Definition is_error_with (m : string) (e : Thrown) : bool :=
  match e with
  | JsError _ message => (message =? m)%string
  | NonError _ => false
  end.

(* ===================================================================== *)
(** ** Data model of the page *)
(* ===================================================================== *)

Inductive Role : Type := user | assistant.

(** [interface Message]. The declared type of [content] is [string], but the
    reply text is read from an untyped response body, so at run time it is
    whatever value the body holds there. *)
Module Message.
Record t : Type := make { role : Role; content : Value }.
End Message.
Abbreviation Message := Message.t.

(** [interface Context]. *)
Module Context.
Record t : Type := make { id : string; name : string; content : string }.
End Context.
Abbreviation Context := Context.t.

(** The [useState] cells of [Index]. *)
Record State : Type := mkState {
  messages : list Message;
  contexts : list Context;
  selectedContext : string;
  input : string;
  isLoading : bool;
  apiKey : string
}.

Definition initial_state : State :=
  mkState [] [] "no-context" "" false "".

Inductive Variant : Type := destructive.

Record Toast : Type := mkToast {
  title : string;
  description : string;
  variant : option Variant
}.

(** The argument of [fetch]. [body] is the object handed to
    [JSON.stringify]. *)
Record Request : Type := mkRequest {
  url : string;
  method : string;
  headers : list (string * string);
  body : Value
}.

(** What the handler reads of a fetch [Response]. *)
Record Response : Type := mkResponse {
  status : Z;
  statusText : string;
  json : Settled Value
}.

(** [response.ok]: the status is in the range 200-299. *)
Definition ok (r : Response) : bool :=
  ((200 <=? status r) && (status r <=? 299))%Z.

(** A dropped file: [file.name] and the outcome of [file.text()]. *)
Record File : Type := mkFile {
  file_name : string;
  file_text : Settled string
}.

(** Everything a handler does to the outside, in order. *)
Inductive Event : Type :=
| EToast (t : Toast)
| EFetch (r : Request)
| EDelay (ms : Z)
| EConsoleError (label : string) (e : Thrown)
| EConsoleLog (label : string) (c : Context).

Record World : Type := mkWorld {
  ui : State;
  trace : list Event;
  clock_reads : nat
}.

(** The network as one handler run sees it: the answer to its k-th call. *)
Definition Endpoint : Type := nat -> Request -> Settled Response.

(** The clock: the value of the k-th [Date.now()]. *)
Definition Clock : Type := nat -> Z.

(* ===================================================================== *)
(** ** The handler monad *)
(* ===================================================================== *)

Definition M (A : Type) : Type := World -> Result A * World.

Definition ret {A} (a : A) : M A := fun w => (Ok a, w).

Definition bind {A B} (m : M A) (k : A -> M B) : M B :=
  fun w => match m w with
           | (Ok a, w') => k a w'
           | (Throw e, w') => (Throw e, w')
           end.

Definition throw {A} (e : Thrown) : M A := fun w => (Throw e, w).

(** [try { body } catch (error) { handler }]. *)
Definition try_catch {A} (body : M A) (handler : Thrown -> M A) : M A :=
  fun w => match body w with
           | (Ok a, w') => (Ok a, w')
           | (Throw e, w') => handler e w'
           end.

(** [try { body } finally { cleanup }], for a cleanup that leaves the
    outcome of [body] in place when it completes normally. *)
Definition try_finally {A} (body : M A) (cleanup : M unit) : M A :=
  fun w => match body w with
           | (r, w') => match cleanup w' with
                        | (Ok _, w'') => (r, w'')
                        | (Throw e, w'') => (Throw e, w'')
                        end
           end.

Declare Scope handler_scope.
Delimit Scope handler_scope with handler.
Notation "x <- m ;; k" := (bind m (fun x => k))
  (at level 100, m at next level, right associativity) : handler_scope.
Notation "m ;; k" := (bind m (fun _ => k))
  (at level 100, right associativity) : handler_scope.
Open Scope handler_scope.

Definition emit (e : Event) : M unit :=
  fun w => (Ok tt, mkWorld (ui w) (trace w ++ [e])%list (clock_reads w)).

Definition update (f : State -> State) : M unit :=
  fun w => (Ok tt, mkWorld (f (ui w)) (trace w) (clock_reads w)).

Definition toast (t : Toast) : M unit := emit (EToast t).
Definition delay (ms : Z) : M unit := emit (EDelay ms).
Definition console_error (label : string) (e : Thrown) : M unit :=
  emit (EConsoleError label e).
Definition console_log (label : string) (c : Context) : M unit :=
  emit (EConsoleLog label c).

(** The state setters, all used with a functional update or a constant. *)
Definition setMessages (f : list Message -> list Message) : M unit :=
  update (fun s => mkState (f (messages s)) (contexts s) (selectedContext s)
                           (input s) (isLoading s) (apiKey s)).
Definition setContexts (f : list Context -> list Context) : M unit :=
  update (fun s => mkState (messages s) (f (contexts s)) (selectedContext s)
                           (input s) (isLoading s) (apiKey s)).
Definition setInput (v : string) : M unit :=
  update (fun s => mkState (messages s) (contexts s) (selectedContext s)
                           v (isLoading s) (apiKey s)).
Definition setIsLoading (v : bool) : M unit :=
  update (fun s => mkState (messages s) (contexts s) (selectedContext s)
                           (input s) v (apiKey s)).

(** [await p] for a promise that settles. *)
Definition await {A} (p : Settled A) : M A :=
  match p with
  | Resolved a => ret a
  | Rejected e => throw e
  end.

Definition lift {A} (r : Result A) : M A :=
  match r with
  | Ok a => ret a
  | Throw e => throw e
  end.

Fixpoint count_fetch (t : list Event) : nat :=
  match t with
  | [] => 0
  | EFetch _ :: rest => S (count_fetch rest)
  | _ :: rest => count_fetch rest
  end.

(** [await fetch(...)]: the call is made, then its promise settles. *)
Definition fetch (ep : Endpoint) (r : Request) : M Response :=
  fun w => let k := count_fetch (trace w) in
           bind (emit (EFetch r)) (fun _ => await (ep k r)) w.

(** [Date.now()]. *)
Definition date_now (now : Clock) : M Z :=
  fun w => (Ok (now (clock_reads w)),
            mkWorld (ui w) (trace w) (S (clock_reads w))).

(* ===================================================================== *)
(** ** [handleSend] *)
(* ===================================================================== *)

(** The instruction that opens the template literal of line 103. *)
Definition restrictive_instruction : string :=
  "You are a helpful assistant. Use ONLY the following context to answer the question. If the question cannot be answered using the context, say "
  ++ dq ++ "I cannot answer this question based on the provided context." ++ dq.

(** The template literal of lines 103-110. *)
Definition grounded_prompt (context_content question : string) : string :=
  restrictive_instruction ++ nl ++ nl
  ++ "Context:" ++ nl
  ++ context_content ++ nl ++ nl
  ++ "Question: " ++ question ++ nl ++ nl
  ++ "Answer:".

(** Lines 99-111: the prompt [makeRequest] builds from the values its
    closure captured. *)
Definition prompt_of (s : State) : string :=
  let context :=
    find (fun ctx => (Context.id ctx =? selectedContext s)%string) (contexts s) in
  match context with
  | Some ctx =>
      if negb (selectedContext s =? "no-context")%string
      then grounded_prompt (Context.content ctx) (input s)
      else input s
  | None => input s
  end.

(** Lines 113-128: the argument of [fetch]. *)
Definition request_of (s : State) : Request :=
  mkRequest
    ("https://generativelanguage.googleapis.com/v1beta/models/gemini-1.5-flash:generateContent?key="
     ++ apiKey s)
    "POST"
    [("Content-Type", "application/json")]
    (VObj [("contents",
            VArr [VObj [("parts",
                         VArr [VObj [("text", VStr (prompt_of s))]])]])]).

(** [new Error(message)]. *)
Definition new_Error (message : Value) : Thrown :=
  JsError PlainError (toString message).

(** Lines 98-139. [s] is the render snapshot the closure captured. *)
Definition makeRequest (ep : Endpoint) (s : State) : M Value :=
  response <- fetch ep (request_of s) ;;
  if negb (ok response) then
    errorData <- await (json response) ;;
    if (status response =? 429)%Z then
      throw (new_Error (VStr "RATE_LIMIT"))
    else
      message <- lift (provider_message errorData) ;;
      throw (new_Error (or_else message (VStr (statusText response))))
  else
    await (json response).

Definition maxRetries : nat := 3.

(** Line 151: [Math.pow(2, retryCount) * 1000]. *)
Definition waitTime (retryCount : nat) : Z := 2 ^ Z.of_nat retryCount * 1000.

(** Lines 152-155. *)
Definition retry_notice (retryCount : nat) : Toast :=
  mkToast "Rate limit reached"
    ("Retrying in " ++ string_of_Z (waitTime retryCount / 1000)
     ++ " seconds... (Attempt " ++ string_of_Z (Z.of_nat retryCount)
     ++ "/" ++ string_of_Z (Z.of_nat maxRetries) ++ ")")
    None.

(** Lines 152-156: announce the wait, then wait. *)
Definition back_off (retryCount : nat) : M unit :=
  toast (retry_notice retryCount) ;;
  delay (waitTime retryCount).

(** Lines 143-162: the [while (retryCount < maxRetries)] loop. It yields
    the value of [data] when the loop is left normally; [break] leaves it
    with the response body, a false loop test leaves [data] unassigned. *)
Equations? retry_loop (ep : Endpoint) (s : State) (retryCount : nat) (w : World)
  : Result Value * World by wf (maxRetries - retryCount) lt :=
retry_loop ep s retryCount w with lt_dec retryCount maxRetries => {
  | right _ => (Ok VUndefined, w);
  | left _ with makeRequest ep s w => {
    | (Ok data, w1) => (Ok data, w1);
    | (Throw error, w1) with is_error_with "RATE_LIMIT" error => {
      | false => (Throw error, w1);
      | true with lt_dec (S retryCount) maxRetries => {
        | right _ => (Throw error, w1);
        | left _ => retry_loop ep s (S retryCount)
                      (snd (back_off (S retryCount) w1)) } } } }.
Proof.
  clear retry_loop. unfold maxRetries in *.
  destruct retryCount as [|[|[|]]]; lia.
Qed.

Definition api_key_required : Toast :=
  mkToast "API Key Required"
          "Please enter your Google AI API key to continue"
          (Some destructive).

(** Lines 175-182. *)
Definition error_toast (error : Thrown) : Toast :=
  let errorMessage :=
    match error with
    | JsError _ message => message
    | NonError _ => "Failed to get response"
    end in
  mkToast "Error"
    (if (errorMessage =? "RATE_LIMIT")%string
     then "Rate limit exceeded. Please try again later."
     else errorMessage)
    (Some destructive).

(** Lines 78-187. [s] is the render snapshot whose [input], [apiKey],
    [contexts] and [selectedContext] the handler closes over. *)
Definition handleSend (ep : Endpoint) (s : State) : M unit :=
  if negb (nonempty (trim (input s))) then ret tt
  else if negb (nonempty (apiKey s)) then toast api_key_required
  else
    let userMessage := Message.make user (VStr (input s)) in
    setMessages (fun prev => prev ++ [userMessage])%list ;;
    setInput "" ;;
    setIsLoading true ;;
    try_finally
      (try_catch
         (data <- retry_loop ep s 0 ;;
          (if negb (truthy data)
           then throw (new_Error (VStr "Failed to get response after retries"))
           else ret tt) ;;
          text <- lift (first_text data) ;;
          let assistantMessage := Message.make assistant text in
          setMessages (fun prev => prev ++ [assistantMessage])%list)
         (fun error =>
            toast (error_toast error) ;;
            console_error "API Error:" error))
      (setIsLoading false).

(** One run of the handler in the page state [s]: the handler starts from
    the store it was rendered from, with nothing done yet. *)
Definition run_handleSend (ep : Endpoint) (s : State) : Result unit * World :=
  handleSend ep s (mkWorld s [] 0).

(* ===================================================================== *)
(** ** [onDrop] *)
(* ===================================================================== *)

(** Lines 46-55: the [for ... of] loop over the accepted files. *)
Fixpoint onDrop_files (now : Clock) (acceptedFiles : list File) : M unit :=
  match acceptedFiles with
  | [] => ret tt
  | file :: rest =>
      text <- await (file_text file) ;;
      t <- date_now now ;;
      let newContext := Context.make (string_of_Z t) (file_name file) text in
      setContexts (fun prev => prev ++ [newContext])%list ;;
      console_log "Added context:" newContext ;;
      onDrop_files now rest
  end.

(** Lines 44-67. *)
Definition onDrop (now : Clock) (acceptedFiles : list File) : M unit :=
  try_catch
    (onDrop_files now acceptedFiles ;;
     toast (mkToast "Success" "Documents uploaded successfully" None))
    (fun _ =>
       toast (mkToast "Error" "Failed to upload documents" (Some destructive))).

(* ===================================================================== *)
(** ** Vocabulary for the statements *)
(* ===================================================================== *)

(** What one settled call means to [makeRequest] (lines 130-138), as a
    function of the settled promise alone. [makeRequest_spec] below proves
    that [makeRequest] computes exactly this. *)
Definition response_outcome (p : Settled Response) : Result Value :=
  match p with
  | Rejected e => Throw e
  | Resolved response =>
      match json response with
      | Rejected e => Throw e
      | Resolved parsed =>
          if ok response then Ok parsed
          else if (status response =? 429)%Z
               then Throw (new_Error (VStr "RATE_LIMIT"))
               else match provider_message parsed with
                    | Throw e => Throw e
                    | Ok message =>
                        Throw (new_Error
                                 (or_else message (VStr (statusText response))))
                    end
      end
  end.

(** The world [w] after the events [evs] and nothing else. *)
Definition extend (w : World) (evs : list Event) : World :=
  mkWorld (ui w) (trace w ++ evs)%list (clock_reads w).

(** The user message of line 90. *)
Definition userMessage (s : State) : Message :=
  Message.make user (VStr (input s)).

(** The store after a run that went past the credential test: the user
    message and then [reply] were appended, the input field was cleared and
    the loading flag is off again. *)
Definition submitted (s : State) (reply : list Message) : State :=
  mkState (messages s ++ userMessage s :: reply)%list (contexts s)
          (selectedContext s) "" false (apiKey s).

(** The store when the request loop starts (after lines 90-93). *)
Definition started (s : State) : State :=
  mkState (messages s ++ [userMessage s])%list (contexts s)
          (selectedContext s) "" true (apiKey s).

(** What the [try] block of lines 141-173 makes of the loop's outcome:
    the reply text, or the error that reaches the outer [catch]. *)
Definition verdict (r : Result Value) : Result Value :=
  match r with
  | Throw e => Throw e
  | Ok data =>
      if truthy data then first_text data
      else Throw (new_Error (VStr "Failed to get response after retries"))
  end.

(** The world a run ends in, given the events [evs] of its request loop and
    the verdict: on a reply the assistant message is appended; on an error
    the error toast is shown and the error logged. *)
Definition settle (s : State) (v : Result Value) (evs : list Event) : World :=
  match v with
  | Ok text => mkWorld (submitted s [Message.make assistant text]) evs 0
  | Throw e =>
      mkWorld (submitted s [])
              (evs ++ [EToast (error_toast e); EConsoleError "API Error:" e])%list 0
  end.

(** A destructive toast: how the page surfaces a failure. *)
Definition is_failure_toast (e : Event) : bool :=
  match e with
  | EToast t => match variant t with Some destructive => true | None => false end
  | _ => false
  end.

Definition surfaced_failure (t : list Event) : bool :=
  existsb is_failure_toast t.

(** A mocked HTTP 429: the status, with a body that parses as JSON. The
    handler parses the body of every non-ok response before it looks at the
    status. *)
Definition rate_limited (p : Settled Response) : Prop :=
  exists r errorData,
    p = Resolved r /\ status r = 429%Z /\ json r = Resolved errorData.

(** A mocked HTTP 200 whose body holds [reply] as the first text part of
    the first candidate. *)
Definition replies (reply : string) (p : Settled Response) : Prop :=
  exists r data,
    p = Resolved r /\ status r = 200%Z /\ json r = Resolved data
    /\ first_text data = Ok (VStr reply).

(** Two page states that submit the same thing: same input, same contexts,
    same selection, same credential. The transcript and the loading flag
    are free. *)
Definition same_submission (s1 s2 : State) : Prop :=
  input s1 = input s2 /\ contexts s1 = contexts s2
  /\ selectedContext s1 = selectedContext s2 /\ apiKey s1 = apiKey s2.

(** The messages a run that started in [s] appended to the transcript. *)
Definition appended (s : State) (w : World) : list Message :=
  skipn (length (messages s)) (messages (ui w)).

Definition ids (l : list Context) : list string := map Context.id l.

(** The contexts one drop adds, as a function of the clock, the number of
    clock readings made before, and the files: one context per file, in
    order, up to the first file whose text cannot be read. [onDrop_spec]
    below proves that [onDrop] appends exactly these. *)
Fixpoint accepted (now : Clock) (k : nat) (files : list File) : list Context :=
  match files with
  | [] => []
  | file :: rest =>
      match file_text file with
      | Resolved text =>
          Context.make (string_of_Z (now k)) (file_name file) text
          :: accepted now (S k) rest
      | Rejected _ => []
      end
  end.

(** The sentence of the specification on malformed bodies, as it is
    written: whenever an HTTP 200 body does not hold a first text part, the
    run surfaces a failure. *)
Definition malformed_body_always_surfaced : Prop :=
  forall (ep : Endpoint) (s : State) (r : Response) (data : Value),
    trim (input s) <> "" ->
    apiKey s <> "" ->
    ep 0 (request_of s) = Resolved r ->
    status r = 200%Z ->
    json r = Resolved data ->
    (forall reply, first_text data <> Ok (VStr reply)) ->
    surfaced_failure (trace (snd (run_handleSend ep s))) = true.

(** The sentence of the specification on failures, as it is written:
    whenever a run surfaces a failure, the transcript is the one the run
    started from. *)
Definition failure_leaves_transcript_untouched : Prop :=
  forall (ep : Endpoint) (s : State),
    surfaced_failure (trace (snd (run_handleSend ep s))) = true ->
    messages (ui (snd (run_handleSend ep s))) = messages s.

(** The sentence of the specification on context ids, as it is written:
    after any drop, the ids in the collection are pairwise distinct. *)
Definition context_ids_always_distinct : Prop :=
  forall (now : Clock) (files : list File),
    NoDup (ids (contexts (ui (snd (onDrop now files
                                     (mkWorld initial_state [] 0)))))).

(* ===================================================================== *)
(** ** Sample pages, bodies and endpoints *)
(* ===================================================================== *)

(** A page with a question typed and a key entered. *)
Definition asking : State :=
  mkState [] [] "no-context" "hello" false "KEY".

(** The same page without a key. *)
Definition asking_without_key : State :=
  mkState [] [] "no-context" "hello" false "".

(** A page whose input holds a space, a tab and a line feed. *)
Definition blank_page : State :=
  mkState [Message.make user (VStr "earlier")] [] "no-context"
          (String " "%char (String "009"%char nl)) true "KEY".



(** The provider's body for a reply: one candidate with one text part. *)
Definition reply_body (reply : string) : Value :=
  VObj [("candidates",
         VArr [VObj [("content",
                      VObj [("parts", VArr [VObj [("text", VStr reply)]])])]])].

(** The provider's body for an error. *)
Definition error_body (message : string) : Value :=
  VObj [("error", VObj [("message", VStr message)])].

(** A body with no [candidates]. *)
Definition empty_body : Value := VObj [].

(** A body whose first part is there but holds no [text]. *)
Definition textless_body : Value :=
  VObj [("candidates",
         VArr [VObj [("content", VObj [("parts", VArr [VObj []])])]])].

Definition http (code : Z) (text : string) (parsed : Value) : Settled Response :=
  Resolved (mkResponse code text (Resolved parsed)).

(** 429 on the first two calls, then 200 with a reply. *)
Definition limited_twice : Endpoint :=
  fun k _ => if (k <? 2)%nat
             then http 429 "Too Many Requests" (error_body "Resource exhausted")
             else http 200 "OK" (reply_body "hi").

(** 429 on every call. *)
Definition always_limited : Endpoint :=
  fun _ _ => http 429 "Too Many Requests" (error_body "Resource exhausted").

(** 500 with the provider's error message. *)
Definition boom : Endpoint :=
  fun _ _ => http 500 "Internal Server Error" (error_body "boom").

(** 503 from a proxy, with an HTML page for a body: [response.json()]
    rejects. *)
Definition html_error_page : Endpoint :=
  fun _ _ => Resolved (mkResponse 503 "Service Unavailable"
                 (Rejected (JsError SyntaxError
                              "Unexpected token < in JSON at position 0"))).

(** A 429 with an empty body: [response.json()] rejects. *)
Definition bare_429 : Settled Response :=
  Resolved (mkResponse 429 "Too Many Requests"
              (Rejected (JsError SyntaxError "Unexpected end of JSON input"))).

(** 429 with an empty body on the first two calls, then 200 with a
    reply. *)
Definition bare_limited_twice : Endpoint :=
  fun k _ => if (k <? 2)%nat then bare_429 else http 200 "OK" (reply_body "hi").

(** 429 with an empty body on every call. *)
Definition bare_always_limited : Endpoint := fun _ _ => bare_429.

(** 500 whose provider message is the text the retry loop uses as its
    rate-limit marker. *)
Definition marker_collision : Endpoint :=
  fun _ _ => http 500 "Internal Server Error" (error_body "RATE_LIMIT").

(** 200 with a body that has no [candidates]. *)
Definition no_candidates : Endpoint := fun _ _ => http 200 "OK" empty_body.

(** 200 with a body whose first part has no [text]. *)
Definition no_text : Endpoint := fun _ _ => http 200 "OK" textless_body.

(** The page after the run against [limited_twice], with the same question
    typed again. *)
Definition asking_again : State :=
  mkState (messages (ui (snd (run_handleSend limited_twice asking))))
          [] "no-context" "hello" false "KEY".

(** A clock that stands still during one drop. *)
Definition same_millisecond : Clock := fun _ => 1700000000000%Z.

Definition two_files : list File :=
  [mkFile "a.txt" (Resolved "first"); mkFile "b.txt" (Resolved "second")].

(* ===================================================================== *)
(** ** The shape of a run *)
(* ===================================================================== *)

(** The events of a request loop that made [k] retries: the first call,
    then for each retry its notice, its wait and its call. *)
Definition schedule (req : Request) (k : nat) : list Event :=
  EFetch req
  :: flat_map (fun n => [EToast (retry_notice n); EDelay (waitTime n); EFetch req])
              (seq 1 k).

(** The time a trace spends in [delay], in milliseconds. *)
Fixpoint total_wait (t : list Event) : Z :=
  match t with
  | [] => 0
  | EDelay ms :: rest => ms + total_wait rest
  | _ :: rest => total_wait rest
  end.

Definition toasts (t : list Event) : list Toast :=
  flat_map (fun e => match e with EToast x => [x] | _ => [] end) t.

Definition requests (t : list Event) : list Request :=
  flat_map (fun e => match e with EFetch r => [r] | _ => [] end) t.

(** A file whose text can be read. *)
Definition readable (f : File) : Prop := exists text, file_text f = Resolved text.

(** The rejection of the first file whose text cannot be read, if any. *)
Fixpoint first_unreadable (files : list File) : option Thrown :=
  match files with
  | [] => None
  | f :: rest =>
      match file_text f with
      | Resolved _ => first_unreadable rest
      | Rejected e => Some e
      end
  end.

(** The two toasts of [onDrop] (lines 56-59 and 61-65). *)
Definition upload_succeeded : Toast :=
  mkToast "Success" "Documents uploaded successfully" None.
Definition upload_failed : Toast :=
  mkToast "Error" "Failed to upload documents" (Some destructive).

(* ===================================================================== *)
(** ** The page as a whole *)
(* ===================================================================== *)

(** Line 203: [onChange] of the key field. *)
Definition setApiKey (v : string) : M unit :=
  update (fun s => mkState (messages s) (contexts s) (selectedContext s)
                           (input s) (isLoading s) v).

(** Line 222: [onValueChange] of the select. *)
Definition setSelectedContext (v : string) : M unit :=
  update (fun s => mkState (messages s) (contexts s) v
                           (input s) (isLoading s) (apiKey s)).

(** Lines 227-232: the values of the items the select renders. *)
Definition select_values (s : State) : list string :=
  "no-context" :: map Context.id (contexts s).

(** What the user can do to the page: type in the input (line 271), type in
    the key field (line 203), pick an item of the select (line 222), drop
    files (line 44), and send (lines 272 and 276) while the network behaves
    as [ep]. *)
Inductive Action : Type :=
| TypeInput (text : string)
| TypeApiKey (text : string)
| PickContext (value : string)
| DropFiles (files : list File)
| Send (ep : Endpoint).

(** The handler an action triggers, run to completion. A send is one run
    of [handleSend] from the current store; its events are added to the
    page's trace. *)
Definition handle (now : Clock) (a : Action) (w : World) : World :=
  match a with
  | TypeInput v => snd (setInput v w)
  | TypeApiKey v => snd (setApiKey v w)
  | PickContext v => snd (setSelectedContext v w)
  | DropFiles files => snd (onDrop now files w)
  | Send ep =>
      let w' := snd (run_handleSend ep (ui w)) in
      mkWorld (ui w') (trace w ++ trace w')%list (clock_reads w)
  end.

(** The select only offers the values it renders. *)
Definition possible (a : Action) (w : World) : Prop :=
  match a with
  | PickContext v => In v (select_values (ui w))
  | _ => True
  end.

(** The pages a user can reach from the freshly mounted one, the handlers
    running one after another. *)
Inductive reachable (now : Clock) : World -> Prop :=
| reach_mount : reachable now (mkWorld initial_state [] 0)
| reach_handle (a : Action) (w : World) :
    reachable now w -> possible a w -> reachable now (handle now a w).

(** A transcript in which every assistant message directly follows a user
    message. [after_user] tells whether the message before the list was a
    user message. *)
Fixpoint turns (after_user : bool) (l : list Message) : bool :=
  match l with
  | [] => true
  | m :: rest =>
      match Message.role m with
      | user => turns true rest
      | assistant => after_user && turns false rest
      end
  end.

(** A user message whose content is a string with something other than
    white space in it; an assistant message is not looked at. *)
Definition said_something (m : Message) : bool :=
  match Message.role m, Message.content m with
  | user, VStr text => nonempty (trim text)
  | user, _ => false
  | assistant, _ => true
  end.

(* ===================================================================== *)
(** ** The earlier revision of the page *)
(* ===================================================================== *)

(** The second source file is an earlier revision of the same component.
    Its [handleSend] makes a single request and knows no retry. *)
Module Part000.

(** Lines 92-95. *)
Definition prompt_of (s : State) : string :=
  let context :=
    find (fun ctx => (Context.id ctx =? selectedContext s)%string) (contexts s) in
  match context with
  | Some ctx =>
      "Context: " ++ Context.content ctx ++ nl ++ nl
      ++ "User Question: " ++ input s
  | None => input s
  end.

(** Lines 97-112. *)
Definition request_of (s : State) : Request :=
  mkRequest
    ("https://generativelanguage.googleapis.com/v1beta/models/gemini-1.5-flash:generateContent?key="
     ++ apiKey s)
    "POST"
    [("Content-Type", "application/json")]
    (VObj [("contents",
            VArr [VObj [("parts",
                         VArr [VObj [("text", VStr (prompt_of s))]])]])]).

(** Line 115. *)
Definition status_error (response : Response) : Thrown :=
  new_Error (VStr ("API request failed with status "
                   ++ string_of_Z (status response))).

(** Lines 127-132. *)
Definition error_toast (error : Thrown) : Toast :=
  let errorMessage :=
    match error with
    | JsError _ message => message
    | NonError _ => "Failed to get response"
    end in
  mkToast "Error" errorMessage (Some destructive).

(** Lines 74-137. *)
Definition handleSend (ep : Endpoint) (s : State) : M unit :=
  if negb (nonempty (trim (input s))) then ret tt
  else if negb (nonempty (apiKey s)) then toast api_key_required
  else
    let userMessage := Message.make user (VStr (input s)) in
    setMessages (fun prev => prev ++ [userMessage])%list ;;
    setInput "" ;;
    setIsLoading true ;;
    try_finally
      (try_catch
         (response <- fetch ep (request_of s) ;;
          (if negb (ok response) then throw (status_error response)
           else ret tt) ;;
          data <- await (json response) ;;
          text <- lift (first_text data) ;;
          let assistantMessage := Message.make assistant text in
          setMessages (fun prev => prev ++ [assistantMessage])%list)
         (fun error =>
            toast (error_toast error) ;;
            console_error "API Error:" error))
      (setIsLoading false).

Definition run_handleSend (ep : Endpoint) (s : State) : Result unit * World :=
  handleSend ep s (mkWorld s [] 0).

(** What the [try] block of lines 91-125 makes of the one call, as a
    function of how the call settled: the reply text, or the error that
    reaches the [catch]. [earlier_run] below proves that the handler
    settles on exactly this. *)
Definition outcome (p : Settled Response) : Result Value :=
  match p with
  | Rejected e => Throw e
  | Resolved response =>
      if ok response then
        match json response with
        | Resolved data => first_text data
        | Rejected e => Throw e
        end
      else Throw (status_error response)
  end.

End Part000.

(** A page with a key, a question, and a context picked from a drop. *)
Definition session : list Action :=
  [TypeApiKey "KEY";
   DropFiles [mkFile "a.txt" (Resolved "first"); mkFile "b.txt" (Resolved "second")];
   PickContext "11";
   TypeInput "hello";
   Send (fun k _ => if (k <? 1)%nat
                    then Resolved (mkResponse 429 "Too Many Requests"
                                              (Resolved (VObj [])))
                    else Resolved (mkResponse 200 "OK"
                           (Resolved
                              (VObj [("candidates",
                                      VArr [VObj [("content",
                                        VObj [("parts",
                                          VArr [VObj [("text", VStr "hi")]])])]])]))));
   TypeInput "more";
   Send (fun _ _ => Resolved (mkResponse 500 "Internal Server Error"
                                         (Resolved (VObj []))))].

(** A clock that advances by one millisecond per reading, from 10. *)
Definition ticking : Clock := fun k => (10 + Z.of_nat k)%Z.

Definition play (now : Clock) (acts : list Action) : World :=
  fold_left (fun w a => handle now a w) acts (mkWorld initial_state [] 0).

(* ===================================================================== *)
(** ** Strings: trimming and substrings *)
(* ===================================================================== *)

Lemma nonempty_false (s : string) : nonempty s = false <-> s = "".
Proof. destruct s; simpl; split; congruence. Qed.

Lemma nonempty_true (s : string) : nonempty s = true <-> s <> "".
Proof. destruct s; simpl; split; congruence. Qed.

Lemma trimStart_all_white_space (s : string) :
  all_white_space s = true -> trimStart s = "".
Proof.
  induction s as [|c rest IH]; simpl; [reflexivity|].
  intros H. apply andb_true_iff in H as [Hc Hrest].
  rewrite Hc. auto.
Qed.

Lemma trimEnd_empty (s : string) :
  trimEnd s = "" -> all_white_space s = true.
Proof.
  induction s as [|c rest IH]; simpl; [reflexivity|].
  destruct (trimEnd rest) eqn:E; [|discriminate].
  destruct (is_white_space c); [|discriminate].
  intros _. simpl. auto.
Qed.

Lemma all_white_space_trimStart (s : string) :
  all_white_space (trimStart s) = true -> all_white_space s = true.
Proof.
  induction s as [|c rest IH]; simpl; [reflexivity|].
  destruct (is_white_space c) eqn:E; simpl.
  - exact IH.
  - rewrite E. simpl. congruence.
Qed.

(** The send handler's first test, [!input.trim()], holds exactly for the
    inputs made of white space only. *)
Lemma trim_empty_iff (s : string) :
  trim s = "" <-> all_white_space s = true.
Proof.
  unfold trim. split.
  - intros H. apply all_white_space_trimStart, trimEnd_empty, H.
  - intros H. rewrite (trimStart_all_white_space _ H). reflexivity.
Qed.

Lemma contains_intro (pre t post : string) : contains t (pre ++ t ++ post).
Proof. exists pre, post. reflexivity. Qed.

Lemma string_app_assoc (a b c : string) : (a ++ b) ++ c = a ++ b ++ c.
Proof. induction a; simpl; congruence. Qed.



Lemma contains_question (c q : string) :
  contains q (grounded_prompt c q).
Proof.
  exists (restrictive_instruction ++ nl ++ nl ++ "Context:" ++ nl
          ++ c ++ nl ++ nl ++ "Question: "),
         (nl ++ nl ++ "Answer:").
  unfold grounded_prompt.
  repeat rewrite string_app_assoc. reflexivity.
Qed.

(** [contexts.find] returns the first context whose id is the selected
    one, and returns nothing exactly when no context has that id. *)
Lemma find_selected_some (sel : string) (l : list Context) :
  (exists c, In c l /\ Context.id c = sel) ->
  exists ctx, find (fun c => (Context.id c =? sel)%string) l = Some ctx
              /\ In ctx l /\ Context.id ctx = sel.
Proof.
  intros [c [Hin Hid]].
  destruct (find (fun c => (Context.id c =? sel)%string) l) as [ctx|] eqn:E.
  - exists ctx. split; [reflexivity|].
    apply find_some in E as [Hin' Heq].
    split; [exact Hin'|]. now apply String.eqb_eq.
  - exfalso. apply (find_none _ _ E) in Hin.
    apply String.eqb_neq in Hin. contradiction.
Qed.

Lemma find_selected_none (sel : string) (l : list Context) :
  (forall c, In c l -> Context.id c <> sel) ->
  find (fun c => (Context.id c =? sel)%string) l = None.
Proof.
  intros H.
  destruct (find (fun c => (Context.id c =? sel)%string) l) as [ctx|] eqn:E;
    [|reflexivity].
  apply find_some in E as [Hin Heq].
  apply String.eqb_eq in Heq. exfalso. exact (H _ Hin Heq).
Qed.

(* ===================================================================== *)
(** ** One request, and the retry loop *)
(* ===================================================================== *)

(** [makeRequest] makes exactly one call, touches nothing else, and its
    outcome is a function of how that call settled. *)
Lemma makeRequest_spec (ep : Endpoint) (s : State) (w : World) :
  makeRequest ep s w =
  (response_outcome (ep (count_fetch (trace w)) (request_of s)),
   extend w [EFetch (request_of s)]).
Proof.
  unfold makeRequest, fetch, bind, emit, extend. simpl.
  destruct (ep (count_fetch (trace w)) (request_of s)) as [r|e]; simpl;
    [|reflexivity].
  destruct (ok r); simpl.
  - destruct (json r); reflexivity.
  - destruct (json r) as [parsed|e]; simpl; [|reflexivity].
    destruct (status r =? 429)%Z; [reflexivity|].
    destruct (provider_message parsed); reflexivity.
Qed.

(** The loop, one iteration unfolded, written with the source's tests. *)
Lemma retry_loop_step (ep : Endpoint) (s : State) (retryCount : nat) (w : World) :
  retry_loop ep s retryCount w =
  if (retryCount <? maxRetries)%nat then
    match makeRequest ep s w with
    | (Ok data, w1) => (Ok data, w1)
    | (Throw error, w1) =>
        if is_error_with "RATE_LIMIT" error then
          if (S retryCount <? maxRetries)%nat
          then retry_loop ep s (S retryCount) (snd (back_off (S retryCount) w1))
          else (Throw error, w1)
        else (Throw error, w1)
    end
  else (Ok VUndefined, w).
Proof.
  rewrite retry_loop_equation_1.
  destruct (lt_dec retryCount maxRetries) as [Hlt|Hge]; simpl.
  - apply Nat.ltb_lt in Hlt as Hb. rewrite Hb.
    destruct (makeRequest ep s w) as [[data|error] w1]; simpl; [reflexivity|].
    destruct (is_error_with "RATE_LIMIT" error); simpl; [|reflexivity].
    destruct (lt_dec (S retryCount) maxRetries) as [Hlt'|Hge']; simpl.
    + apply Nat.ltb_lt in Hlt'. rewrite Hlt'. reflexivity.
    + apply Nat.ltb_nlt in Hge'. rewrite Hge'. reflexivity.
  - apply Nat.ltb_nlt in Hge. rewrite Hge. reflexivity.
Qed.

Lemma back_off_spec (retryCount : nat) (w : World) :
  back_off retryCount w =
  (Ok tt, extend w [EToast (retry_notice retryCount); EDelay (waitTime retryCount)]).
Proof.
  unfold back_off, bind, toast, delay, emit, extend. simpl.
  rewrite <- app_assoc. reflexivity.
Qed.

Lemma extend_extend (w : World) (a b : list Event) :
  extend (extend w a) b = extend w (a ++ b)%list.
Proof. unfold extend. simpl. rewrite app_assoc. reflexivity. Qed.

Lemma extend_nil (w : World) : extend w [] = w.
Proof. destruct w. unfold extend. simpl. rewrite app_nil_r. reflexivity. Qed.

Lemma surfaced_failure_app (a b : list Event) :
  surfaced_failure (a ++ b)%list = surfaced_failure a || surfaced_failure b.
Proof. apply existsb_app. Qed.

(** The loop only ever adds events to the world, none of them a failure
    toast, and what it adds and yields depends on the snapshot only through
    the request and on the world only through the calls already made. *)
Lemma retry_loop_frame (ep : Endpoint) (s s' : State) :
  request_of s = request_of s' ->
  forall n retryCount w w',
    maxRetries - retryCount = n ->
    trace w = trace w' ->
    exists r evs,
      retry_loop ep s retryCount w = (r, extend w evs)
      /\ retry_loop ep s' retryCount w' = (r, extend w' evs)
      /\ surfaced_failure evs = false.
Proof.
  intros Hreq n.
  induction n as [|n IH]; intros retryCount w w' Hn Htr.
  - exists (Ok VUndefined), [].
    rewrite !retry_loop_step.
    assert ((retryCount <? maxRetries)%nat = false) as ->
      by (apply Nat.ltb_ge; lia).
    rewrite !extend_nil. auto.
  - rewrite !retry_loop_step.
    assert ((retryCount <? maxRetries)%nat = true) as ->
      by (apply Nat.ltb_lt; lia).
    rewrite !makeRequest_spec, <- Hreq, <- Htr.
    destruct (response_outcome _) as [data|error].
    + exists (Ok data), [EFetch (request_of s)]. auto.
    + destruct (is_error_with "RATE_LIMIT" error);
        [|exists (Throw error), [EFetch (request_of s)]; auto].
      destruct (S retryCount <? maxRetries)%nat;
        [|exists (Throw error), [EFetch (request_of s)]; auto].
      rewrite !back_off_spec. simpl snd. rewrite !extend_extend.
      destruct (IH (S retryCount)
                   (extend w ([EFetch (request_of s)]
                              ++ [EToast (retry_notice (S retryCount));
                                  EDelay (waitTime (S retryCount))]))
                   (extend w' ([EFetch (request_of s)]
                               ++ [EToast (retry_notice (S retryCount));
                                   EDelay (waitTime (S retryCount))])))
        as (r & evs & E1 & E2 & Hq).
      * lia.
      * simpl. rewrite Htr. reflexivity.
      * exists r, (([EFetch (request_of s)]
                    ++ [EToast (retry_notice (S retryCount));
                        EDelay (waitTime (S retryCount))]) ++ evs)%list.
        rewrite E1, E2, !extend_extend.
        repeat split. rewrite surfaced_failure_app, Hq. reflexivity.
Qed.

(** The handler past its two guards: it runs the loop from the started
    store and settles on the verdict. No error escapes it. *)
Lemma handleSend_after_loop (ep : Endpoint) (s : State) r evs :
  nonempty (trim (input s)) = true ->
  nonempty (apiKey s) = true ->
  retry_loop ep s 0 (mkWorld (started s) [] 0)
  = (r, extend (mkWorld (started s) [] 0) evs) ->
  run_handleSend ep s = (Ok tt, settle s (verdict r) evs).
Proof.
  intros Hin Hkey Hloop.
  unfold run_handleSend, handleSend. rewrite Hin, Hkey. simpl.
  unfold bind, try_finally, try_catch, setMessages, setInput, setIsLoading,
    update. simpl.
  fold (userMessage s). fold (started s).
  rewrite Hloop. unfold extend, verdict, settle, submitted, started. simpl.
  destruct r as [data|e]; simpl; [|rewrite <- app_assoc; reflexivity].
  destruct (truthy data); simpl; [|rewrite <- app_assoc; reflexivity].
  destruct (first_text data) as [text|e]; simpl.
  - rewrite <- app_assoc. reflexivity.
  - rewrite <- app_assoc. reflexivity.
Qed.

Lemma rate_limited_outcome (p : Settled Response) :
  rate_limited p ->
  response_outcome p = Throw (JsError PlainError "RATE_LIMIT").
Proof.
  intros (r & errorData & -> & Hst & Hjson).
  unfold response_outcome, ok. rewrite Hjson, Hst. reflexivity.
Qed.

Lemma replies_outcome (reply : string) (p : Settled Response) :
  replies reply p ->
  exists data, response_outcome p = Ok data
               /\ first_text data = Ok (VStr reply).
Proof.
  intros (r & data & -> & Hst & Hjson & Htext).
  exists data. unfold response_outcome, ok. rewrite Hjson, Hst. auto.
Qed.

(** A body from which the reply text can be read is an object, hence
    truthy: the [!data] test of line 164 lets it through. *)
Lemma first_text_truthy (data v : Value) :
  first_text data = Ok v -> truthy data = true.
Proof.
  destruct data; simpl; try discriminate; auto.
Qed.

(* ===================================================================== *)
(** ** The guards of [handleSend] *)
(* ===================================================================== *)

(** C10. When the input is empty or holds white space only, the send
    handler does nothing: it returns at once, the store (transcript,
    contexts, selection, input field, loading flag) is the one it started
    from, and the trace is empty: no network call and no toast. *)
Theorem blank_input_is_noop (ep : Endpoint) (s : State) :
  all_white_space (input s) = true ->
  run_handleSend ep s = (Ok tt, mkWorld s [] 0).
Proof.
  intros H. apply trim_empty_iff in H.
  unfold run_handleSend, handleSend. rewrite H. reflexivity.
Qed.

Lemma blank_input_is_noop_witness :
  all_white_space (input blank_page) = true
  /\ run_handleSend limited_twice blank_page = (Ok tt, mkWorld blank_page [] 0).
Proof.
  split.
  - reflexivity.
  - apply (blank_input_is_noop limited_twice blank_page). reflexivity.
Defined.

(** C1. When the trimmed input is not empty and the credential is the
    empty string, the send handler shows the destructive toast
    [API Key Required] and returns. That toast is its first and only
    effect: the trace holds nothing else, so no network call is made, and
    the store is untouched. *)
Theorem missing_credential_blocks_request (ep : Endpoint) (s : State) :
  trim (input s) <> "" ->
  apiKey s = "" ->
  run_handleSend ep s = (Ok tt, mkWorld s [EToast api_key_required] 0)
  /\ count_fetch (trace (snd (run_handleSend ep s))) = 0
  /\ variant api_key_required = Some destructive.
Proof.
  intros Hin Hkey.
  assert (run_handleSend ep s = (Ok tt, mkWorld s [EToast api_key_required] 0))
    as E.
  { unfold run_handleSend, handleSend.
    apply nonempty_true in Hin. rewrite Hin, Hkey. reflexivity. }
  rewrite E. auto.
Qed.

Lemma missing_credential_blocks_request_witness :
  run_handleSend limited_twice asking_without_key
  = (Ok tt, mkWorld asking_without_key [EToast api_key_required] 0)
  /\ count_fetch (trace (snd (run_handleSend limited_twice asking_without_key))) = 0
  /\ variant api_key_required = Some destructive.
Proof.
  apply (missing_credential_blocks_request limited_twice asking_without_key).
  - vm_compute. discriminate.
  - reflexivity.
Defined.

(* ===================================================================== *)
(** ** The prompt *)
(* ===================================================================== *)



(* ===================================================================== *)
(** ** Rate limiting and back-off *)
(* ===================================================================== *)

(** The wait before retry [n] is [2^n] seconds, computed from [n] alone. *)
Lemma waitTime_seconds (n : nat) : (waitTime n / 1000 = 2 ^ Z.of_nat n)%Z.
Proof. unfold waitTime. apply Z.div_mul. discriminate. Qed.

Ltac loop_step :=
  rewrite retry_loop_step, makeRequest_spec;
  cbn [Nat.ltb Nat.leb maxRetries trace extend app count_fetch].

(** The back-off as the source performs it when the 429 responses carry a
    JSON body, as the provider's do. Against an endpoint that answers such
    a 429 to the first two calls and HTTP 200 with a
    well-formed body to the third, one run of the send
    handler makes exactly three calls, waits 2000 ms before the second and
    4000 ms before the third (each wait announced by a notice; the wait
    before retry n is [2^n] seconds, computed from n alone), and appends
    the reply text read from the body as the assistant message. *)
Theorem two_rate_limits_then_reply (ep : Endpoint) (s : State) (reply : string) :
  trim (input s) <> "" ->
  apiKey s <> "" ->
  rate_limited (ep 0 (request_of s)) ->
  rate_limited (ep 1 (request_of s)) ->
  replies reply (ep 2 (request_of s)) ->
  run_handleSend ep s
  = (Ok tt,
     mkWorld (submitted s [Message.make assistant (VStr reply)])
             [EFetch (request_of s);
              EToast (retry_notice 1); EDelay 2000;
              EFetch (request_of s);
              EToast (retry_notice 2); EDelay 4000;
              EFetch (request_of s)]
             0)
  /\ count_fetch (trace (snd (run_handleSend ep s))) = 3
  /\ (forall n, waitTime n = 2 ^ Z.of_nat n * 1000)%Z
  /\ description (retry_notice 1) = "Retrying in 2 seconds... (Attempt 1/3)"
  /\ description (retry_notice 2) = "Retrying in 4 seconds... (Attempt 2/3)".
Proof.
  intros Hin Hkey H0 H1 H2.
  apply nonempty_true in Hin. apply nonempty_true in Hkey.
  apply rate_limited_outcome in H0, H1.
  apply replies_outcome in H2 as (data & H2 & Htext).
  assert (retry_loop ep s 0 (mkWorld (started s) [] 0)
          = (Ok data,
             extend (mkWorld (started s) [] 0)
                    [EFetch (request_of s);
                     EToast (retry_notice 1); EDelay 2000;
                     EFetch (request_of s);
                     EToast (retry_notice 2); EDelay 4000;
                     EFetch (request_of s)])) as Hloop.
  { loop_step. rewrite H0. cbn [is_error_with String.eqb Ascii.eqb Bool.eqb].
    rewrite back_off_spec. cbn [snd].
    loop_step. rewrite H1. cbn [is_error_with String.eqb Ascii.eqb Bool.eqb].
    rewrite back_off_spec. cbn [snd].
    loop_step. rewrite H2. reflexivity. }
  rewrite (@handleSend_after_loop ep s _ _ Hin Hkey Hloop).
  unfold verdict. rewrite (first_text_truthy _ _ Htext), Htext.
  repeat split.
Qed.

Lemma two_rate_limits_then_reply_witness :
  run_handleSend limited_twice asking
  = (Ok tt,
     mkWorld (submitted asking [Message.make assistant (VStr "hi")])
             [EFetch (request_of asking);
              EToast (retry_notice 1); EDelay 2000;
              EFetch (request_of asking);
              EToast (retry_notice 2); EDelay 4000;
              EFetch (request_of asking)]
             0)
  /\ count_fetch (trace (snd (run_handleSend limited_twice asking))) = 3
  /\ (forall n, waitTime n = 2 ^ Z.of_nat n * 1000)%Z
  /\ description (retry_notice 1) = "Retrying in 2 seconds... (Attempt 1/3)"
  /\ description (retry_notice 2) = "Retrying in 4 seconds... (Attempt 2/3)".
Proof.
  apply (two_rate_limits_then_reply limited_twice asking "hi").
  - vm_compute. discriminate.
  - vm_compute. discriminate.
  - eexists _, _. repeat split.
  - eexists _, _. repeat split.
  - eexists _, _. repeat split.
Defined.

(** The toast that reports an exhausted retry budget (lines 176-182). *)
Lemma rate_limit_toast :
  error_toast (JsError PlainError "RATE_LIMIT")
  = mkToast "Error" "Rate limit exceeded. Please try again later."
            (Some destructive).
Proof. reflexivity. Qed.

(** The exhausted budget as the source reports it when the 429 responses
    carry a JSON body, as the provider's do. Against an endpoint that
    answers such a 429 to every call, one run of the send handler makes
    exactly three calls and no fourth; each of
    the two retries comes after a notice that states the wait and the
    attempt number out of the maximum; after the third 429 the handler
    gives up and surfaces the destructive [Error] toast
    [Rate limit exceeded. Please try again later.]. No assistant message
    is appended. *)
Theorem always_rate_limited_gives_up (ep : Endpoint) (s : State) :
  trim (input s) <> "" ->
  apiKey s <> "" ->
  (forall k, rate_limited (ep k (request_of s))) ->
  run_handleSend ep s
  = (Ok tt,
     mkWorld (submitted s [])
             [EFetch (request_of s);
              EToast (retry_notice 1); EDelay 2000;
              EFetch (request_of s);
              EToast (retry_notice 2); EDelay 4000;
              EFetch (request_of s);
              EToast (mkToast "Error"
                              "Rate limit exceeded. Please try again later."
                              (Some destructive));
              EConsoleError "API Error:" (JsError PlainError "RATE_LIMIT")]
             0)
  /\ count_fetch (trace (snd (run_handleSend ep s))) = 3
  /\ description (retry_notice 1) = "Retrying in 2 seconds... (Attempt 1/3)"
  /\ description (retry_notice 2) = "Retrying in 4 seconds... (Attempt 2/3)".
Proof.
  intros Hin Hkey Hall.
  apply nonempty_true in Hin. apply nonempty_true in Hkey.
  pose proof (rate_limited_outcome _ (Hall 0)) as H0.
  pose proof (rate_limited_outcome _ (Hall 1)) as H1.
  pose proof (rate_limited_outcome _ (Hall 2)) as H2.
  assert (retry_loop ep s 0 (mkWorld (started s) [] 0)
          = (Throw (JsError PlainError "RATE_LIMIT"),
             extend (mkWorld (started s) [] 0)
                    [EFetch (request_of s);
                     EToast (retry_notice 1); EDelay 2000;
                     EFetch (request_of s);
                     EToast (retry_notice 2); EDelay 4000;
                     EFetch (request_of s)])) as Hloop.
  { loop_step. rewrite H0. cbn [is_error_with String.eqb Ascii.eqb Bool.eqb].
    rewrite back_off_spec. cbn [snd].
    loop_step. rewrite H1. cbn [is_error_with String.eqb Ascii.eqb Bool.eqb].
    rewrite back_off_spec. cbn [snd].
    loop_step. rewrite H2. reflexivity. }
  rewrite (@handleSend_after_loop ep s _ _ Hin Hkey Hloop).
  repeat split.
Qed.

Lemma always_rate_limited_gives_up_witness :
  count_fetch (trace (snd (run_handleSend always_limited asking))) = 3
  /\ surfaced_failure (trace (snd (run_handleSend always_limited asking))) = true
  /\ messages (ui (snd (run_handleSend always_limited asking)))
     = [Message.make user (VStr "hello")].
Proof.
  destruct (always_rate_limited_gives_up always_limited asking) as (E & Hn & _).
  - vm_compute. discriminate.
  - vm_compute. discriminate.
  - intros k. eexists _, _. repeat split.
  - rewrite E. repeat split.
Defined.

(* ===================================================================== *)
(** ** Failed requests *)
(* ===================================================================== *)

(** A single call that settles in an error other than the rate-limit
    marker ends the run: one call, the error toast, no reply. *)
Lemma single_call_failure (ep : Endpoint) (s : State) (e : Thrown) :
  nonempty (trim (input s)) = true ->
  nonempty (apiKey s) = true ->
  response_outcome (ep 0 (request_of s)) = Throw e ->
  is_error_with "RATE_LIMIT" e = false ->
  run_handleSend ep s
  = (Ok tt,
     mkWorld (submitted s [])
             [EFetch (request_of s); EToast (error_toast e);
              EConsoleError "API Error:" e] 0).
Proof.
  intros Hin Hkey Hout Hnot.
  assert (retry_loop ep s 0 (mkWorld (started s) [] 0)
          = (Throw e, extend (mkWorld (started s) [] 0) [EFetch (request_of s)]))
    as Hloop.
  { loop_step. rewrite Hout, Hnot. reflexivity. }
  rewrite (@handleSend_after_loop ep s _ _ Hin Hkey Hloop). reflexivity.
Qed.

(** A single call that settles in a body ends the loop at once. *)
Lemma single_call_body (ep : Endpoint) (s : State) (data : Value) :
  nonempty (trim (input s)) = true ->
  nonempty (apiKey s) = true ->
  response_outcome (ep 0 (request_of s)) = Ok data ->
  run_handleSend ep s
  = (Ok tt, settle s (verdict (Ok data)) [EFetch (request_of s)]).
Proof.
  intros Hin Hkey Hout.
  assert (retry_loop ep s 0 (mkWorld (started s) [] 0)
          = (Ok data, extend (mkWorld (started s) [] 0) [EFetch (request_of s)]))
    as Hloop.
  { loop_step. rewrite Hout. reflexivity. }
  exact (@handleSend_after_loop ep s _ _ Hin Hkey Hloop).
Qed.

(** What the source does right for a failed request: a non-429 error
    status whose body parses to something other than null, and whose
    message is not the rate-limit marker, costs one call and surfaces the
    provider's message when it is truthy, else the status text. *)
Lemma request_failed_once (ep : Endpoint) (s : State) (r : Response)
      (errorData message : Value) :
  trim (input s) <> "" ->
  apiKey s <> "" ->
  ep 0 (request_of s) = Resolved r ->
  ok r = false ->
  status r <> 429%Z ->
  json r = Resolved errorData ->
  provider_message errorData = Ok message ->
  toString (or_else message (VStr (statusText r))) <> "RATE_LIMIT" ->
  run_handleSend ep s
  = (Ok tt,
     mkWorld (submitted s [])
       [EFetch (request_of s);
        EToast (mkToast "Error"
                        (toString (or_else message (VStr (statusText r))))
                        (Some destructive));
        EConsoleError "API Error:"
          (new_Error (or_else message (VStr (statusText r))))] 0).
Proof.
  intros Hin Hkey Hep Hok Hst Hjson Hmsg Hnot.
  apply nonempty_true in Hin. apply nonempty_true in Hkey.
  apply Z.eqb_neq in Hst. apply String.eqb_neq in Hnot.
  rewrite (single_call_failure ep s
             (new_Error (or_else message (VStr (statusText r)))) Hin Hkey).
  - unfold error_toast, new_Error. rewrite Hnot. reflexivity.
  - rewrite Hep. unfold response_outcome. rewrite Hjson, Hok, Hst, Hmsg.
    reflexivity.
  - exact Hnot.
Qed.

(** The example of the specification: HTTP 500 with the body
    [{error: {message: boom}}] costs one call and surfaces [boom]. *)
Example boom_once :
  run_handleSend boom asking
  = (Ok tt,
     mkWorld (submitted asking [])
       [EFetch (request_of asking);
        EToast (mkToast "Error" "boom" (Some destructive));
        EConsoleError "API Error:" (JsError PlainError "boom")] 0).
Proof.
  apply (request_failed_once boom asking
           (mkResponse 500 "Internal Server Error" (Resolved (error_body "boom")))
           (error_body "boom") (VStr "boom"));
    try reflexivity; vm_compute; discriminate.
Qed.

(** C5. Two responses with an error status other than 429 on which the
    source leaves the stated behaviour. (1) HTTP 503 [Service Unavailable] with a
    body that is not JSON: [response.json()] is awaited before anything
    else, its rejection becomes the error, and the toast shows the parser's
    message, which is neither a provider message nor the status text.
    (2) HTTP 500 whose provider message is the text [RATE_LIMIT]: the
    retry loop tells a rate limit by that message alone, so the request is
    retried, three calls are made, and the rate-limit toast is shown. *)
Theorem request_failed_divergence :
  run_handleSend html_error_page asking
  = (Ok tt,
     mkWorld (submitted asking [])
       [EFetch (request_of asking);
        EToast (mkToast "Error" "Unexpected token < in JSON at position 0"
                        (Some destructive));
        EConsoleError "API Error:"
          (JsError SyntaxError "Unexpected token < in JSON at position 0")] 0)
  /\ run_handleSend marker_collision asking
     = (Ok tt,
        mkWorld (submitted asking [])
          [EFetch (request_of asking);
           EToast (retry_notice 1); EDelay 2000;
           EFetch (request_of asking);
           EToast (retry_notice 2); EDelay 4000;
           EFetch (request_of asking);
           EToast (mkToast "Error"
                           "Rate limit exceeded. Please try again later."
                           (Some destructive));
           EConsoleError "API Error:" (JsError PlainError "RATE_LIMIT")] 0)
  /\ count_fetch (trace (snd (run_handleSend marker_collision asking))) = 3.
Proof. vm_compute. repeat split. Qed.

(** A null error body: the read of [errorData.error] raises, and the toast
    carries that TypeError's message. *)
Example null_error_body :
  surfaced_failure (trace (snd (run_handleSend
     (fun _ _ => http 500 "Internal Server Error" VNull) asking))) = true
  /\ In (EToast (mkToast "Error"
                    "Cannot read properties of null (reading 'error')"
                    (Some destructive)))
        (trace (snd (run_handleSend
           (fun _ _ => http 500 "Internal Server Error" VNull) asking))).
Proof. vm_compute. split; [reflexivity | right; left; reflexivity]. Qed.

(** The same parse-first order also decides a 429 whose body is not JSON:
    it is not retried. *)
Example rate_limit_with_unparsable_body :
  let ep : Endpoint :=
    fun _ _ => Resolved (mkResponse 429 "Too Many Requests"
                 (Rejected (JsError SyntaxError "Unexpected end of JSON input"))) in
  count_fetch (trace (snd (run_handleSend ep asking))) = 1.
Proof. vm_compute. reflexivity. Qed.

(** Any response with an error status whose body does not parse ends the
    run after that one call, 429 or not: the rejection of
    [response.json()] (line 131) is thrown before the status is tested
    (line 132), and unless its message is the marker the loop rethrows
    it. *)
Lemma unparsable_error_body_ends_run (ep : Endpoint) (s : State)
      (r : Response) (e : Thrown) :
  trim (input s) <> "" ->
  apiKey s <> "" ->
  ep 0 (request_of s) = Resolved r ->
  ok r = false ->
  json r = Rejected e ->
  is_error_with "RATE_LIMIT" e = false ->
  run_handleSend ep s
  = (Ok tt,
     mkWorld (submitted s [])
             [EFetch (request_of s); EToast (error_toast e);
              EConsoleError "API Error:" e] 0).
Proof.
  intros Hin Hkey Hep Hok Hjson Hnot.
  apply nonempty_true in Hin. apply nonempty_true in Hkey.
  apply single_call_failure; auto.
  rewrite Hep. unfold response_outcome. rewrite Hjson. reflexivity.
Qed.

(** C3. The endpoint [bare_limited_twice] answers HTTP 429 to the first
    two calls and HTTP 200 with a well-formed body to the third, as the
    claim supposes; its 429 responses have an empty body. The run does not
    retry: it makes one call, never waits, shows the destructive toast with
    the JSON parser's message, and appends no reply. *)
Theorem bare_rate_limit_not_retried :
  (exists r0 r1,
      bare_limited_twice 0 (request_of asking) = Resolved r0
      /\ status r0 = 429%Z
      /\ bare_limited_twice 1 (request_of asking) = Resolved r1
      /\ status r1 = 429%Z)
  /\ replies "hi" (bare_limited_twice 2 (request_of asking))
  /\ run_handleSend bare_limited_twice asking
     = (Ok tt,
        mkWorld (submitted asking [])
          [EFetch (request_of asking);
           EToast (mkToast "Error" "Unexpected end of JSON input"
                           (Some destructive));
           EConsoleError "API Error:"
             (JsError SyntaxError "Unexpected end of JSON input")] 0)
  /\ count_fetch (trace (snd (run_handleSend bare_limited_twice asking))) = 1
  /\ total_wait (trace (snd (run_handleSend bare_limited_twice asking))) = 0%Z
  /\ messages (ui (snd (run_handleSend bare_limited_twice asking)))
     = [Message.make user (VStr "hello")].
Proof.
  split; [eexists _, _; repeat split|].
  split; [eexists _, _; repeat split|].
  vm_compute. repeat split.
Qed.

(** C4. The endpoint [bare_always_limited] answers HTTP 429 to every
    call, as the claim supposes; its responses have an empty body. The run
    makes one call, not three, announces no retry, and the toast it ends
    with carries the JSON parser's message, not the rate-limit text. *)
Theorem bare_rate_limit_gives_up_at_once :
  (forall k, exists r,
      bare_always_limited k (request_of asking) = Resolved r
      /\ status r = 429%Z)
  /\ run_handleSend bare_always_limited asking
     = (Ok tt,
        mkWorld (submitted asking [])
          [EFetch (request_of asking);
           EToast (mkToast "Error" "Unexpected end of JSON input"
                           (Some destructive));
           EConsoleError "API Error:"
             (JsError SyntaxError "Unexpected end of JSON input")] 0)
  /\ count_fetch (trace (snd (run_handleSend bare_always_limited asking))) = 1
  /\ toasts (trace (snd (run_handleSend bare_always_limited asking)))
     = [mkToast "Error" "Unexpected end of JSON input" (Some destructive)].
Proof.
  split; [intros k; eexists; repeat split|].
  vm_compute. repeat split.
Qed.

(* ===================================================================== *)
(** ** Malformed bodies *)
(* ===================================================================== *)

(** No error escapes the handler, whatever the endpoint does: the run
    always ends normally. *)
Lemma handleSend_never_throws (ep : Endpoint) (s : State) :
  fst (run_handleSend ep s) = Ok tt.
Proof.
  destruct (nonempty (trim (input s))) eqn:Hin;
    [|unfold run_handleSend, handleSend; rewrite Hin; reflexivity].
  destruct (nonempty (apiKey s)) eqn:Hkey;
    [|unfold run_handleSend, handleSend; rewrite Hin, Hkey; reflexivity].
  destruct (retry_loop_frame ep s s eq_refl (maxRetries - 0) 0
              (mkWorld (started s) [] 0) (mkWorld (started s) [] 0)
              eq_refl eq_refl) as (r & evs & Hloop & _ & _).
  rewrite (@handleSend_after_loop ep s _ _ Hin Hkey Hloop). reflexivity.
Qed.

(** C6 as written fails: a body whose first part is there but
    has no [text] passes every property read; the handler appends an
    assistant message whose content is undefined and shows no error. *)
Lemma textless_body_not_surfaced : ~ malformed_body_always_surfaced.
Proof.
  intros claim.
  specialize (claim no_text asking
                (mkResponse 200 "OK" (Resolved textless_body)) textless_body).
  assert (surfaced_failure (trace (snd (run_handleSend no_text asking))) = false)
    as Hquiet by (vm_compute; reflexivity).
  rewrite claim in Hquiet; try discriminate; reflexivity.
Qed.

Example textless_body_run :
  run_handleSend no_text asking
  = (Ok tt,
     mkWorld (submitted asking [Message.make assistant VUndefined])
             [EFetch (request_of asking)] 0).
Proof. vm_compute. reflexivity. Qed.

(** C6, amended. For an HTTP 200 response with any parsed body the run
    ends normally: nothing escapes the handler. If the body is falsy, or if
    reading [candidates[0].content.parts[0].text] raises because
    [candidates], the first candidate, [content], [parts] or the first part
    is undefined or null, then one call was made, the destructive [Error]
    toast carrying that error's message is shown, the error is logged, and
    no assistant message is appended. *)
Theorem malformed_body_surfaced (ep : Endpoint) (s : State) (r : Response)
        (data : Value) :
  trim (input s) <> "" ->
  apiKey s <> "" ->
  ep 0 (request_of s) = Resolved r ->
  status r = 200%Z ->
  json r = Resolved data ->
  fst (run_handleSend ep s) = Ok tt
  /\ (truthy data = false \/ (exists e, first_text data = Throw e) ->
      exists e,
        verdict (Ok data) = Throw e
        /\ variant (error_toast e) = Some destructive
        /\ run_handleSend ep s
           = (Ok tt,
              mkWorld (submitted s [])
                      [EFetch (request_of s); EToast (error_toast e);
                       EConsoleError "API Error:" e] 0)).
Proof.
  intros Hin Hkey Hep Hst Hjson.
  split; [apply handleSend_never_throws|].
  apply nonempty_true in Hin. apply nonempty_true in Hkey.
  assert (response_outcome (ep 0 (request_of s)) = Ok data) as Hout.
  { rewrite Hep. unfold response_outcome, ok. rewrite Hjson, Hst. reflexivity. }
  rewrite (single_call_body ep s data Hin Hkey Hout).
  intros Hbad.
  assert (exists e, verdict (Ok data) = Throw e) as [e He].
  { unfold verdict. destruct (truthy data) eqn:Ht.
    - destruct Hbad as [Hf | [e He]]; [discriminate|]. exists e. exact He.
    - eexists. reflexivity. }
  exists e. rewrite He. repeat split.
Qed.

Lemma malformed_body_surfaced_witness :
  run_handleSend no_candidates asking
  = (Ok tt,
     mkWorld (submitted asking [])
       [EFetch (request_of asking);
        EToast (mkToast "Error"
                        "Cannot read properties of undefined (reading '0')"
                        (Some destructive));
        EConsoleError "API Error:"
          (JsError TypeError
                   "Cannot read properties of undefined (reading '0')")] 0).
Proof.
  destruct (malformed_body_surfaced no_candidates asking
              (mkResponse 200 "OK" (Resolved empty_body)) empty_body)
    as [_ H].
  - vm_compute. discriminate.
  - vm_compute. discriminate.
  - reflexivity.
  - reflexivity.
  - reflexivity.
  - destruct H as (e & He & _ & Hrun).
    + right. eexists. vm_compute. reflexivity.
    + rewrite Hrun. vm_compute in He. injection He as <-. reflexivity.
Defined.

(* ===================================================================== *)
(** ** The transcript *)
(* ===================================================================== *)

(** C7 as written fails: a request that fails is surfaced, and
    the user message that was appended before the request stays in the
    transcript. *)
Lemma failed_request_keeps_user_message : ~ failure_leaves_transcript_untouched.
Proof.
  intros claim. specialize (claim boom asking).
  rewrite boom_once in claim. simpl in claim.
  specialize (claim eq_refl). discriminate.
Qed.

(** C7, amended. Every run on a non-blank input ends in one of two ways.
    Either a failure is surfaced by a destructive toast and no assistant
    message is appended: with an empty credential the transcript is the one
    the run started from, otherwise it has gained the user message, which
    the handler appends before it sends anything. Or no failure is
    surfaced and the transcript has gained the user message followed by
    exactly one assistant message. *)
Theorem failure_or_single_reply (ep : Endpoint) (s : State) :
  trim (input s) <> "" ->
  (surfaced_failure (trace (snd (run_handleSend ep s))) = true
   /\ messages (ui (snd (run_handleSend ep s)))
      = (messages s ++ (if nonempty (apiKey s) then [userMessage s] else []))%list)
  \/ (surfaced_failure (trace (snd (run_handleSend ep s))) = false
      /\ exists text,
           messages (ui (snd (run_handleSend ep s)))
           = (messages s ++ [userMessage s; Message.make assistant text])%list).
Proof.
  intros Hin. apply nonempty_true in Hin.
  destruct (nonempty (apiKey s)) eqn:Hkey.
  - destruct (retry_loop_frame ep s s eq_refl (maxRetries - 0) 0
                (mkWorld (started s) [] 0) (mkWorld (started s) [] 0)
                eq_refl eq_refl) as (r & evs & Hloop & _ & Hquiet).
    rewrite (@handleSend_after_loop ep s _ _ Hin Hkey Hloop).
    destruct (verdict r) as [text|e]; simpl.
    + right. split; [exact Hquiet|]. exists text. reflexivity.
    + left. split; [|reflexivity].
      rewrite surfaced_failure_app, Hquiet. destruct e; reflexivity.
  - left. unfold run_handleSend, handleSend. rewrite Hin, Hkey. simpl.
    rewrite app_nil_r. auto.
Qed.

Lemma failure_or_single_reply_witness :
  messages (ui (snd (run_handleSend boom asking)))
  = [Message.make user (VStr "hello")]
  /\ messages (ui (snd (run_handleSend limited_twice asking)))
     = [Message.make user (VStr "hello"); Message.make assistant (VStr "hi")].
Proof.
  split.
  - destruct (failure_or_single_reply boom asking) as [[_ H] | [H _]].
    + vm_compute. discriminate.
    + exact H.
    + vm_compute in H. discriminate.
  - destruct (failure_or_single_reply limited_twice asking)
      as [[H _] | [_ [text H]]].
    + vm_compute. discriminate.
    + vm_compute in H. discriminate.
    + vm_compute. reflexivity.
Defined.

(* ===================================================================== *)
(** ** Determinism *)
(* ===================================================================== *)

Lemma request_of_same (s1 s2 : State) :
  same_submission s1 s2 -> request_of s1 = request_of s2.
Proof.
  intros (Hi & Hc & Hs & Hk).
  unfold request_of, prompt_of. rewrite Hi, Hc, Hs, Hk. reflexivity.
Qed.

Lemma appended_submitted (s : State) (reply : list Message)
      (evs : list Event) (n : nat) :
  appended s (mkWorld (submitted s reply) evs n) = userMessage s :: reply.
Proof.
  unfold appended. simpl.
  rewrite skipn_app, skipn_all, Nat.sub_diag. reflexivity.
Qed.

Lemma appended_settle (s : State) (v : Result Value) (evs : list Event) :
  appended s (settle s v evs)
  = userMessage s :: match v with
                     | Ok text => [Message.make assistant text]
                     | Throw _ => []
                     end.
Proof. destruct v; simpl; apply appended_submitted. Qed.

Lemma trace_settle_same (s1 s2 : State) (v : Result Value) (evs : list Event) :
  trace (settle s1 v evs) = trace (settle s2 v evs).
Proof. destruct v; reflexivity. Qed.

(** C8. The send handler carries nothing from one run to the next. Two
    runs against the same deterministic endpoint, from page states with the
    same input, contexts, selected context and credential (the transcript
    and the loading flag may differ, as they do after an earlier run), end
    the same way, perform the same calls, waits and toasts in the same
    order, hence surface the same failure or none, and append the same
    messages, hence the same reply text. *)
Theorem dispatch_deterministic (ep : Endpoint) (s1 s2 : State) :
  same_submission s1 s2 ->
  fst (run_handleSend ep s1) = fst (run_handleSend ep s2)
  /\ trace (snd (run_handleSend ep s1)) = trace (snd (run_handleSend ep s2))
  /\ appended s1 (snd (run_handleSend ep s1))
     = appended s2 (snd (run_handleSend ep s2)).
Proof.
  intros Hsame.
  rewrite !handleSend_never_throws.
  pose proof (request_of_same s1 s2 Hsame) as Hreq.
  destruct Hsame as (Hi & _ & _ & Hk).
  assert (userMessage s1 = userMessage s2) as Hum
    by (unfold userMessage; rewrite Hi; reflexivity).
  destruct (nonempty (trim (input s1))) eqn:Hin1.
  - assert (nonempty (trim (input s2)) = true) as Hin2 by (rewrite <- Hi; exact Hin1).
    destruct (nonempty (apiKey s1)) eqn:Hkey1.
    + assert (nonempty (apiKey s2) = true) as Hkey2 by (rewrite <- Hk; exact Hkey1).
      destruct (retry_loop_frame ep s1 s2 Hreq (maxRetries - 0) 0
                  (mkWorld (started s1) [] 0) (mkWorld (started s2) [] 0)
                  eq_refl eq_refl) as (r & evs & Hloop1 & Hloop2 & _).
      rewrite (@handleSend_after_loop ep s1 _ _ Hin1 Hkey1 Hloop1).
      rewrite (@handleSend_after_loop ep s2 _ _ Hin2 Hkey2 Hloop2).
      cbn [snd]. rewrite !appended_settle, Hum.
      repeat split. apply trace_settle_same.
    + assert (nonempty (apiKey s2) = false) as Hkey2 by (rewrite <- Hk; exact Hkey1).
      unfold run_handleSend, handleSend.
      rewrite Hin1, Hin2, Hkey1, Hkey2. simpl.
      unfold appended. simpl. rewrite !skipn_all. auto.
  - assert (nonempty (trim (input s2)) = false) as Hin2 by (rewrite <- Hi; exact Hin1).
    unfold run_handleSend, handleSend. rewrite Hin1, Hin2. simpl.
    unfold appended. simpl. rewrite !skipn_all. auto.
Qed.

Lemma dispatch_deterministic_witness :
  same_submission asking asking_again
  /\ trace (snd (run_handleSend limited_twice asking))
     = trace (snd (run_handleSend limited_twice asking_again))
  /\ appended asking_again (snd (run_handleSend limited_twice asking_again))
     = [Message.make user (VStr "hello"); Message.make assistant (VStr "hi")].
Proof.
  assert (same_submission asking asking_again) as Hsame
    by (repeat split; reflexivity).
  destruct (dispatch_deterministic limited_twice asking asking_again Hsame)
    as (_ & Htrace & Happ).
  split; [exact Hsame|]. split; [exact Htrace|].
  rewrite <- Happ. vm_compute. reflexivity.
Defined.

(* ===================================================================== *)
(** ** The context collection *)
(* ===================================================================== *)

(** [onDrop] touches the context collection only, and only by appending
    the accepted contexts in the order of the files: nothing that was there
    is changed, moved or removed. *)
Lemma onDrop_files_spec (now : Clock) (files : list File) :
  forall w,
    ui (snd (onDrop_files now files w))
    = mkState (messages (ui w))
              (contexts (ui w) ++ accepted now (clock_reads w) files)%list
              (selectedContext (ui w)) (input (ui w)) (isLoading (ui w))
              (apiKey (ui w)).
Proof.
  induction files as [|file rest IH]; intros w.
  - simpl. rewrite app_nil_r. destruct w as [[] ? ?]. reflexivity.
  - simpl. unfold bind at 1.
    destruct (file_text file) as [text|e]; simpl.
    + unfold bind. simpl. rewrite IH. simpl.
      rewrite <- app_assoc. reflexivity.
    + rewrite app_nil_r. destruct w as [[] ? ?]. reflexivity.
Qed.

Lemma onDrop_spec (now : Clock) (files : list File) (w : World) :
  ui (snd (onDrop now files w))
  = mkState (messages (ui w))
            (contexts (ui w) ++ accepted now (clock_reads w) files)%list
            (selectedContext (ui w)) (input (ui w)) (isLoading (ui w))
            (apiKey (ui w)).
Proof.
  unfold onDrop, try_catch, bind.
  pose proof (onDrop_files_spec now files w) as H.
  destruct (onDrop_files now files w) as [[[]|e] w']; simpl in *; exact H.
Qed.

Lemma to_int_not_nil (z : Z) :
  Z.to_int z <> Decimal.Pos Decimal.Nil /\ Z.to_int z <> Decimal.Neg Decimal.Nil.
Proof.
  destruct z as [|p|p]; simpl; split; try discriminate; intros H;
    injection H as H; exact (DecimalPos.Unsigned.to_uint_nonnil p H).
Qed.

(** Printing a number loses nothing: equal decimal strings, equal numbers. *)
Lemma string_of_Z_inj (a b : Z) : string_of_Z a = string_of_Z b -> a = b.
Proof.
  unfold string_of_Z. intros H.
  apply DecimalZ.to_int_inj.
  destruct (to_int_not_nil a) as [Ha1 Ha2].
  destruct (to_int_not_nil b) as [Hb1 Hb2].
  pose proof (NilZero.isi (Z.to_int a) Ha1 Ha2) as Ea.
  pose proof (NilZero.isi (Z.to_int b) Hb1 Hb2) as Eb.
  rewrite H in Ea. rewrite Ea in Eb. injection Eb as Eb. exact Eb.
Qed.

Lemma accepted_ids_from (now : Clock) (files : list File) :
  forall k x, In x (ids (accepted now k files)) ->
              exists j, k <= j /\ x = string_of_Z (now j).
Proof.
  induction files as [|file rest IH]; intros k x Hin; simpl in Hin; [easy|].
  destruct (file_text file); simpl in Hin; [|easy].
  destruct Hin as [<- | Hin].
  - exists k. split; [lia | reflexivity].
  - destruct (IH (S k) x Hin) as (j & Hj & ->). exists j. split; [lia | reflexivity].
Qed.

(** What the source gets right: as long as no two readings of the clock
    agree, the contexts of one drop get pairwise distinct ids. *)
Lemma accepted_ids_distinct (now : Clock) (files : list File) :
  (forall i j, now i = now j -> i = j) ->
  forall k, NoDup (ids (accepted now k files)).
Proof.
  intros Hinj.
  induction files as [|file rest IH]; intros k; simpl; [constructor|].
  destruct (file_text file); simpl; [|constructor].
  constructor; [|apply IH].
  intros Hin. apply accepted_ids_from in Hin as (j & Hj & E).
  apply string_of_Z_inj, Hinj in E. lia.
Qed.

(** C9. Two files accepted in one drop while the clock shows the same
    millisecond get the same id: the ids come from [Date.now()] alone. Both
    contexts are appended in order and nothing else is touched, but the ids
    in the collection are not pairwise distinct; the second context can then
    never be the one [contexts.find] returns, so selecting it grounds the
    prompt in the text of the first. *)
Theorem same_millisecond_ids_collide :
  contexts (ui (snd (onDrop same_millisecond two_files
                       (mkWorld initial_state [] 0))))
  = [Context.make "1700000000000" "a.txt" "first";
     Context.make "1700000000000" "b.txt" "second"]
  /\ ~ context_ids_always_distinct
  /\ prompt_of (mkState [] [Context.make "1700000000000" "a.txt" "first";
                            Context.make "1700000000000" "b.txt" "second"]
                        "1700000000000" "q" false "KEY")
     = grounded_prompt "first" "q".
Proof.
  split; [vm_compute; reflexivity|]. split; [|vm_compute; reflexivity].
  intros claim. specialize (claim same_millisecond two_files).
  rewrite onDrop_spec in claim. simpl in claim.
  inversion claim as [|x l Hnotin _]. apply Hnotin. left. reflexivity.
Qed.

(* ===================================================================== *)
(** ** Every run of [handleSend] *)
(* ===================================================================== *)

(** The loop stops at the first call whose outcome is not the rate-limit
    marker, or at the third call: it makes [k] retries, every call before
    the last ended in the marker, and the loop yields the outcome of the
    last call. *)
Lemma loop_shape (ep : Endpoint) (s : State) :
  exists k,
    k < maxRetries
    /\ retry_loop ep s 0 (mkWorld (started s) [] 0)
       = (response_outcome (ep k (request_of s)),
          extend (mkWorld (started s) [] 0) (schedule (request_of s) k))
    /\ (forall i, i < k ->
          exists e, response_outcome (ep i (request_of s)) = Throw e
                    /\ is_error_with "RATE_LIMIT" e = true)
    /\ (k < 2 -> forall e, response_outcome (ep k (request_of s)) = Throw e ->
                           is_error_with "RATE_LIMIT" e = false).
Proof.
  unfold maxRetries.
  destruct (response_outcome (ep 0 (request_of s))) as [d0|e0] eqn:H0.
  { exists 0. repeat split; try lia.
    - loop_step. rewrite H0. reflexivity.
    - intros _ e He. rewrite H0 in He. discriminate. }
  destruct (is_error_with "RATE_LIMIT" e0) eqn:M0.
  2:{ exists 0. repeat split; try lia.
      - loop_step. rewrite H0, M0. reflexivity.
      - intros _ e He. rewrite H0 in He. injection He as <-. exact M0. }
  destruct (response_outcome (ep 1 (request_of s))) as [d1|e1] eqn:H1.
  { exists 1. repeat split; try lia.
    - loop_step. rewrite H0, M0, back_off_spec. cbn [snd].
      loop_step. rewrite H1. reflexivity.
    - intros i Hi. assert (i = 0) as -> by lia. eauto.
    - intros _ e He. rewrite H1 in He. discriminate. }
  destruct (is_error_with "RATE_LIMIT" e1) eqn:M1.
  2:{ exists 1. repeat split; try lia.
      - loop_step. rewrite H0, M0, back_off_spec. cbn [snd].
        loop_step. rewrite H1, M1. reflexivity.
      - intros i Hi. assert (i = 0) as -> by lia. eauto.
      - intros _ e He. rewrite H1 in He. injection He as <-. exact M1. }
  exists 2. repeat split; try lia.
  - loop_step. rewrite H0, M0, back_off_spec. cbn [snd].
    loop_step. rewrite H1, M1, back_off_spec. cbn [snd].
    loop_step.
    destruct (response_outcome (ep 2 (request_of s))) as [d2|e2]; [reflexivity|].
    destruct (is_error_with "RATE_LIMIT" e2); reflexivity.
  - intros i Hi. destruct i as [|[|i]]; [eauto | eauto | lia].
Qed.

(** The three ways a run can go: the input is blank; the key is missing;
    or the request loop runs and the handler settles on its verdict. *)
Lemma run_cases (ep : Endpoint) (s : State) :
  (nonempty (trim (input s)) = false
   /\ run_handleSend ep s = (Ok tt, mkWorld s [] 0))
  \/ (nonempty (trim (input s)) = true /\ nonempty (apiKey s) = false
      /\ run_handleSend ep s = (Ok tt, mkWorld s [EToast api_key_required] 0))
  \/ (nonempty (trim (input s)) = true /\ nonempty (apiKey s) = true
      /\ exists k,
           k < maxRetries
           /\ run_handleSend ep s
              = (Ok tt,
                 settle s (verdict (response_outcome (ep k (request_of s))))
                        (schedule (request_of s) k))
           /\ (forall i, i < k ->
                 exists e, response_outcome (ep i (request_of s)) = Throw e
                           /\ is_error_with "RATE_LIMIT" e = true)
           /\ (k < 2 -> forall e,
                 response_outcome (ep k (request_of s)) = Throw e ->
                 is_error_with "RATE_LIMIT" e = false)).
Proof.
  destruct (nonempty (trim (input s))) eqn:Hin.
  2:{ left. split; [reflexivity|].
      unfold run_handleSend, handleSend. rewrite Hin. reflexivity. }
  destruct (nonempty (apiKey s)) eqn:Hkey.
  2:{ right. left. repeat split.
      unfold run_handleSend, handleSend. rewrite Hin, Hkey. reflexivity. }
  right. right. repeat split.
  destruct (loop_shape ep s) as (k & Hk & Hloop & Hbefore & Hlast).
  exists k. repeat split; auto.
  exact (@handleSend_after_loop ep s _ _ Hin Hkey Hloop).
Qed.

Lemma count_fetch_app (a b : list Event) :
  count_fetch (a ++ b)%list = count_fetch a + count_fetch b.
Proof.
  induction a as [|e a IH]; simpl; [reflexivity|].
  destruct e; simpl; rewrite IH; reflexivity.
Qed.

Lemma total_wait_app (a b : list Event) :
  (total_wait (a ++ b)%list = total_wait a + total_wait b)%Z.
Proof.
  induction a as [|e a IH]; simpl; [reflexivity|].
  destruct e; simpl; rewrite IH; lia.
Qed.

Lemma trace_settle (s : State) (v : Result Value) (evs : list Event) :
  trace (settle s v evs)
  = (evs ++ match v with
            | Ok _ => []
            | Throw e => [EToast (error_toast e); EConsoleError "API Error:" e]
            end)%list.
Proof. destruct v; simpl; [rewrite app_nil_r|]; reflexivity. Qed.

Lemma ui_settle (s : State) (v : Result Value) (evs : list Event) :
  ui (settle s v evs)
  = submitted s match v with
                | Ok text => [Message.make assistant text]
                | Throw _ => []
                end.
Proof. destruct v; reflexivity. Qed.

Lemma schedule_counts (req : Request) (k : nat) :
  k < maxRetries ->
  count_fetch (schedule req k) = S k
  /\ (total_wait (schedule req k) = 2 ^ Z.of_nat (S k) * 1000 - 2000)%Z
  /\ requests (schedule req k) = repeat req (S k).
Proof.
  unfold maxRetries. intros Hk.
  destruct k as [|[|[|k]]]; try lia; repeat split.
Qed.

(** X1. A run that gets past both guards makes [k + 1] calls for some
    [k] below [maxRetries], laid out as the schedule says: each retry [n]
    after its notice and its wait of [2^n] seconds. Every call before the
    last ended in the rate-limit marker, and the run settles on the outcome
    of the last call alone: the reply is appended, or the error toast is
    shown. *)
Theorem run_follows_schedule (ep : Endpoint) (s : State) :
  trim (input s) <> "" ->
  apiKey s <> "" ->
  exists k,
    k < maxRetries
    /\ run_handleSend ep s
       = (Ok tt,
          settle s (verdict (response_outcome (ep k (request_of s))))
                 (schedule (request_of s) k))
    /\ (forall i, i < k ->
          exists e, response_outcome (ep i (request_of s)) = Throw e
                    /\ is_error_with "RATE_LIMIT" e = true).
Proof.
  intros Hin Hkey.
  apply nonempty_true in Hin. apply nonempty_true in Hkey.
  destruct (run_cases ep s) as [[H _] | [(_ & H & _) | (_ & _ & k & Hk & Hrun & Hbefore & _)]];
    try congruence.
  exists k. auto.
Qed.

Lemma run_follows_schedule_witness :
  exists k,
    k < maxRetries
    /\ run_handleSend limited_twice asking
       = (Ok tt,
          settle asking
                 (verdict (response_outcome (limited_twice k (request_of asking))))
                 (schedule (request_of asking) k))
    /\ (forall i, i < k ->
          exists e, response_outcome (limited_twice i (request_of asking)) = Throw e
                    /\ is_error_with "RATE_LIMIT" e = true).
Proof.
  apply (run_follows_schedule limited_twice asking).
  - vm_compute. discriminate.
  - vm_compute. discriminate.
Defined.

(** X2. Whatever the endpoint does and whatever the page holds, one run
    makes at most three calls, spends at most six seconds waiting, and
    sends the same request in every call. *)
Theorem calls_and_waits_bounded (ep : Endpoint) (s : State) :
  count_fetch (trace (snd (run_handleSend ep s))) <= 3
  /\ (total_wait (trace (snd (run_handleSend ep s))) <= 6000)%Z
  /\ Forall (eq (request_of s)) (requests (trace (snd (run_handleSend ep s)))).
Proof.
  destruct (run_cases ep s)
    as [[_ H] | [(_ & _ & H) | (_ & _ & k & Hk & H & _)]]; rewrite H; cbn [snd].
  - simpl. repeat split; try lia. constructor.
  - simpl. repeat split; try lia. constructor.
  - rewrite trace_settle.
    destruct (schedule_counts (request_of s) k Hk) as (Hc & Hw & Hr).
    assert (forall t, requests (schedule (request_of s) k ++ t)%list
                      = (requests (schedule (request_of s) k) ++ requests t)%list)
      as Happ by (intros t; unfold requests; apply flat_map_app).
    rewrite count_fetch_app, total_wait_app, Happ, Hc, Hw, Hr.
    unfold maxRetries in Hk.
    repeat split.
    + destruct (verdict _); simpl; lia.
    + destruct (verdict _); cbn [total_wait];
        destruct k as [|[|[|k]]]; try lia; vm_compute; discriminate.
    + destruct (verdict _); cbn [requests flat_map app];
        rewrite app_nil_r; apply Forall_forall; intros x Hx;
        apply repeat_spec in Hx; congruence.
Qed.

(** X3. A run never makes a second call unless its first call ended in
    an error whose message is the rate-limit marker. *)
Theorem retry_needs_marker (ep : Endpoint) (s : State) :
  2 <= count_fetch (trace (snd (run_handleSend ep s))) ->
  exists e,
    response_outcome (ep 0 (request_of s)) = Throw e
    /\ is_error_with "RATE_LIMIT" e = true.
Proof.
  destruct (run_cases ep s)
    as [[_ H] | [(_ & _ & H) | (_ & _ & k & Hk & H & Hbefore & _)]];
    rewrite H; cbn [snd]; try (simpl; lia).
  rewrite trace_settle, count_fetch_app.
  destruct (schedule_counts (request_of s) k Hk) as (Hc & _ & _). rewrite Hc.
  intros Hn. apply Hbefore.
  destruct (verdict _); simpl in Hn; lia.
Qed.

Lemma retry_needs_marker_witness :
  exists e,
    response_outcome (limited_twice 0 (request_of asking)) = Throw e
    /\ is_error_with "RATE_LIMIT" e = true.
Proof.
  apply (retry_needs_marker limited_twice asking).
  vm_compute. lia.
Defined.

(** X4. If the first [k] calls are answered with HTTP 429 (with a JSON
    body) and the next with a well-formed reply, for [k] below
    [maxRetries], the run makes [k + 1] calls on the schedule, waits
    [2^(k+1) - 2] seconds in all, shows no failure, and appends the reply.
    For [k = 0] this is the plain successful request. *)
Theorem rate_limits_then_reply (ep : Endpoint) (s : State) (k : nat)
        (reply : string) :
  trim (input s) <> "" ->
  apiKey s <> "" ->
  k < maxRetries ->
  (forall i, i < k -> rate_limited (ep i (request_of s))) ->
  replies reply (ep k (request_of s)) ->
  run_handleSend ep s
  = (Ok tt,
     mkWorld (submitted s [Message.make assistant (VStr reply)])
             (schedule (request_of s) k) 0)
  /\ count_fetch (schedule (request_of s) k) = S k
  /\ (total_wait (schedule (request_of s) k) = 2 ^ Z.of_nat (S k) * 1000 - 2000)%Z
  /\ surfaced_failure (schedule (request_of s) k) = false.
Proof.
  intros Hin Hkey Hk Hlim Hrep.
  apply nonempty_true in Hin. apply nonempty_true in Hkey.
  apply replies_outcome in Hrep as (data & Hout & Htext).
  destruct (schedule_counts (request_of s) k Hk) as (Hc & Hw & _).
  split; [|split; [exact Hc|split; [exact Hw|]]].
  - destruct (run_cases ep s)
      as [[H _] | [(_ & H & _) | (_ & _ & k' & Hk' & Hrun & Hbefore & Hlast)]];
      try congruence.
    assert (k' = k) as ->.
    { destruct (Nat.lt_trichotomy k' k) as [Hlt | [Heq | Hgt]]; [|exact Heq|].
      - exfalso.
        pose proof (rate_limited_outcome _ (Hlim k' Hlt)) as Hm.
        unfold maxRetries in Hk.
        assert (k' < 2) as Hk2 by lia.
        specialize (Hlast Hk2 _ Hm). discriminate.
      - exfalso. destruct (Hbefore k Hgt) as (e & He & _).
        rewrite Hout in He. discriminate. }
    rewrite Hrun, Hout. unfold verdict.
    rewrite (first_text_truthy _ _ Htext), Htext. reflexivity.
  - unfold maxRetries in Hk. destruct k as [|[|[|k]]]; try lia; reflexivity.
Qed.

Lemma rate_limits_then_reply_witness :
  run_handleSend (fun _ _ => http 200 "OK" (reply_body "hi")) asking
  = (Ok tt,
     mkWorld (submitted asking [Message.make assistant (VStr "hi")])
             [EFetch (request_of asking)] 0).
Proof.
  destruct (rate_limits_then_reply
              (fun _ _ => http 200 "OK" (reply_body "hi")) asking 0 "hi")
    as [H _].
  - vm_compute. discriminate.
  - vm_compute. discriminate.
  - unfold maxRetries. lia.
  - intros i Hi. lia.
  - eexists _, _. repeat split.
  - exact H.
Defined.

(** X5. Once a run is past both guards, it leaves the input field empty
    and the loading flag off, however the request ends. *)
Theorem controls_reset_after_run (ep : Endpoint) (s : State) :
  trim (input s) <> "" ->
  apiKey s <> "" ->
  input (ui (snd (run_handleSend ep s))) = ""
  /\ isLoading (ui (snd (run_handleSend ep s))) = false.
Proof.
  intros Hin Hkey.
  apply nonempty_true in Hin. apply nonempty_true in Hkey.
  destruct (run_cases ep s)
    as [[H _] | [(_ & H & _) | (_ & _ & k & _ & Hrun & _)]]; try congruence.
  rewrite Hrun. cbn [snd]. rewrite ui_settle. auto.
Qed.

Lemma controls_reset_after_run_witness :
  input (ui (snd (run_handleSend boom asking))) = ""
  /\ isLoading (ui (snd (run_handleSend boom asking))) = false.
Proof.
  apply (controls_reset_after_run boom asking).
  - vm_compute. discriminate.
  - vm_compute. discriminate.
Defined.

(** X6. No run touches the context collection, the selection or the key,
    reads the clock, or changes or removes a transcript entry: the
    transcript it leaves is the one it found with at most two messages
    appended. *)
Theorem send_frame (ep : Endpoint) (s : State) :
  contexts (ui (snd (run_handleSend ep s))) = contexts s
  /\ selectedContext (ui (snd (run_handleSend ep s))) = selectedContext s
  /\ apiKey (ui (snd (run_handleSend ep s))) = apiKey s
  /\ clock_reads (snd (run_handleSend ep s)) = 0
  /\ exists added,
       messages (ui (snd (run_handleSend ep s))) = (messages s ++ added)%list
       /\ length added <= 2.
Proof.
  destruct (run_cases ep s)
    as [[_ H] | [(_ & _ & H) | (_ & _ & k & _ & H & _)]]; rewrite H; cbn [snd].
  - repeat split. exists []. rewrite app_nil_r. auto.
  - repeat split. exists []. rewrite app_nil_r. simpl. auto.
  - rewrite ui_settle.
    destruct (verdict _); simpl; repeat split; eexists; split;
      try reflexivity; simpl; lia.
Qed.

(** X7. A call that is rejected (a network failure) ends the run at once
    unless the rejection is an error whose message is the rate-limit
    marker: one call, the destructive toast, no reply. The toast carries
    the error's message, or [Failed to get response] when what was thrown
    is not an [Error]. *)
Theorem rejected_fetch_surfaced (ep : Endpoint) (s : State) (e : Thrown) :
  trim (input s) <> "" ->
  apiKey s <> "" ->
  ep 0 (request_of s) = Rejected e ->
  is_error_with "RATE_LIMIT" e = false ->
  run_handleSend ep s
  = (Ok tt,
     mkWorld (submitted s [])
             [EFetch (request_of s); EToast (error_toast e);
              EConsoleError "API Error:" e] 0)
  /\ error_toast e
     = mkToast "Error"
               match e with
               | JsError _ message => message
               | NonError _ => "Failed to get response"
               end
               (Some destructive).
Proof.
  intros Hin Hkey Hep Hnot.
  apply nonempty_true in Hin. apply nonempty_true in Hkey.
  split.
  - apply single_call_failure; auto. rewrite Hep. reflexivity.
  - unfold error_toast. destruct e as [kind message | v].
    + simpl in Hnot. rewrite Hnot. reflexivity.
    + reflexivity.
Qed.

Lemma rejected_fetch_surfaced_witness :
  run_handleSend (fun _ _ => Rejected (NonError (VStr "offline"))) asking
  = (Ok tt,
     mkWorld (submitted asking [])
             [EFetch (request_of asking);
              EToast (mkToast "Error" "Failed to get response" (Some destructive));
              EConsoleError "API Error:" (NonError (VStr "offline"))] 0).
Proof.
  destruct (rejected_fetch_surfaced
              (fun _ _ => Rejected (NonError (VStr "offline"))) asking
              (NonError (VStr "offline"))) as [H _].
  - vm_compute. discriminate.
  - vm_compute. discriminate.
  - reflexivity.
  - reflexivity.
  - exact H.
Defined.

Lemma error_toast_hides_marker (e : Thrown) :
  description (error_toast e) <> "RATE_LIMIT".
Proof.
  unfold error_toast. destruct e as [kind message | v]; simpl.
  - destruct (message =? "RATE_LIMIT")%string eqn:E; [discriminate|].
    apply String.eqb_neq. exact E.
  - discriminate.
Qed.

Lemma toasts_app (a b : list Event) :
  toasts (a ++ b)%list = (toasts a ++ toasts b)%list.
Proof. unfold toasts. apply flat_map_app. Qed.

(** X8. Every toast a run shows is the missing-key toast, the notice of
    retry 1 or of retry 2, or an error toast; and no toast ever shows the
    internal marker text [RATE_LIMIT] to the user. *)
Theorem toasts_of_a_run (ep : Endpoint) (s : State) (t : Toast) :
  In t (toasts (trace (snd (run_handleSend ep s)))) ->
  (t = api_key_required \/ t = retry_notice 1 \/ t = retry_notice 2
   \/ exists e, t = error_toast e)
  /\ description t <> "RATE_LIMIT".
Proof.
  intros Hin.
  assert (t = api_key_required \/ t = retry_notice 1 \/ t = retry_notice 2
          \/ exists e, t = error_toast e) as Hcase.
  { destruct (run_cases ep s)
      as [[_ H] | [(_ & _ & H) | (_ & _ & k & Hk & H & _)]];
      rewrite H in Hin; cbn [snd] in Hin.
    - destruct Hin.
    - destruct Hin as [<- | []]. auto.
    - rewrite trace_settle, toasts_app in Hin.
      apply in_app_or in Hin as [Hin | Hin].
      + unfold maxRetries in Hk.
        destruct k as [|[|[|k]]]; try lia; simpl in Hin; intuition auto.
      + destruct (verdict _) as [text|e]; simpl in Hin; [destruct Hin|].
        destruct Hin as [<- | []]. eauto 6. }
  split; [exact Hcase|].
  destruct Hcase as [-> | [-> | [-> | [e ->]]]];
    try (vm_compute; discriminate).
  apply error_toast_hides_marker.
Qed.

Lemma toasts_of_a_run_witness :
  description (mkToast "Error" "Rate limit exceeded. Please try again later."
                       (Some destructive)) <> "RATE_LIMIT".
Proof.
  apply (toasts_of_a_run always_limited asking).
  vm_compute. right. right. left. reflexivity.
Defined.

Lemma string_app_empty_r (a : string) : a ++ "" = a.
Proof. induction a; simpl; congruence. Qed.

(** X9. The prompt always contains the user's input, whole, whatever is
    selected. *)
Theorem prompt_keeps_question (s : State) :
  contains (input s) (prompt_of s).
Proof.
  unfold prompt_of.
  destruct (find _ (contexts s)) as [ctx|].
  - destruct (negb _).
    + apply contains_question.
    + exists "", "". simpl. rewrite string_app_empty_r. reflexivity.
  - exists "", "". simpl. rewrite string_app_empty_r. reflexivity.
Qed.

(* ===================================================================== *)
(** ** The earlier revision *)
(* ===================================================================== *)

(** The earlier handler past its guards: one call, then the reply or the
    error toast. *)
Lemma earlier_run (ep : Endpoint) (s : State) :
  nonempty (trim (input s)) = true ->
  nonempty (apiKey s) = true ->
  Part000.run_handleSend ep s
  = (Ok tt,
     match Part000.outcome (ep 0 (Part000.request_of s)) with
     | Ok text =>
         mkWorld (submitted s [Message.make assistant text])
                 [EFetch (Part000.request_of s)] 0
     | Throw e =>
         mkWorld (submitted s [])
                 [EFetch (Part000.request_of s);
                  EToast (Part000.error_toast e);
                  EConsoleError "API Error:" e] 0
     end).
Proof.
  intros Hin Hkey.
  unfold Part000.run_handleSend, Part000.handleSend. rewrite Hin, Hkey. simpl.
  unfold bind, try_finally, try_catch, setMessages, setInput, setIsLoading,
    update, fetch, emit, bind. simpl.
  unfold Part000.outcome, submitted, userMessage.
  destruct (ep 0 (Part000.request_of s)) as [r|e]; simpl; [|reflexivity].
  destruct (ok r); simpl; [|reflexivity].
  destruct (json r) as [data|e]; simpl; [|reflexivity].
  destruct (first_text data) as [text|e]; simpl.
  - rewrite <- app_assoc. reflexivity.
  - reflexivity.
Qed.

(** X10. The earlier revision never retries: past its guards a run makes
    exactly one call and never waits, whatever the endpoint answers, a 429
    included. *)
Theorem earlier_never_retries (ep : Endpoint) (s : State) :
  trim (input s) <> "" ->
  apiKey s <> "" ->
  count_fetch (trace (snd (Part000.run_handleSend ep s))) = 1
  /\ total_wait (trace (snd (Part000.run_handleSend ep s))) = 0%Z.
Proof.
  intros Hin Hkey.
  apply nonempty_true in Hin. apply nonempty_true in Hkey.
  rewrite (earlier_run ep s Hin Hkey).
  destruct (Part000.outcome _); auto.
Qed.

Lemma earlier_never_retries_witness :
  count_fetch (trace (snd (Part000.run_handleSend always_limited asking))) = 1
  /\ total_wait (trace (snd (Part000.run_handleSend always_limited asking))) = 0%Z.
Proof.
  apply (earlier_never_retries always_limited asking).
  - vm_compute. discriminate.
  - vm_compute. discriminate.
Defined.

(** X11. In the earlier revision a response with an error status is
    reported by its status code alone: the toast reads
    [API request failed with status N], whatever the body holds, and the
    body is never read. *)
Theorem earlier_status_error (ep : Endpoint) (s : State) (r : Response) :
  trim (input s) <> "" ->
  apiKey s <> "" ->
  ep 0 (Part000.request_of s) = Resolved r ->
  ok r = false ->
  Part000.run_handleSend ep s
  = (Ok tt,
     mkWorld (submitted s [])
       [EFetch (Part000.request_of s);
        EToast (mkToast "Error"
                        ("API request failed with status "
                         ++ string_of_Z (status r))
                        (Some destructive));
        EConsoleError "API Error:"
          (JsError PlainError ("API request failed with status "
                               ++ string_of_Z (status r)))] 0).
Proof.
  intros Hin Hkey Hep Hok.
  apply nonempty_true in Hin. apply nonempty_true in Hkey.
  rewrite (earlier_run ep s Hin Hkey), Hep.
  unfold Part000.outcome. rewrite Hok. reflexivity.
Qed.

Lemma earlier_status_error_witness :
  toasts (trace (snd (Part000.run_handleSend html_error_page asking)))
  = [mkToast "Error" "API request failed with status 503" (Some destructive)].
Proof.
  rewrite (earlier_status_error html_error_page asking
             (mkResponse 503 "Service Unavailable"
                (Rejected (JsError SyntaxError
                             "Unexpected token < in JSON at position 0")))).
  - reflexivity.
  - vm_compute. discriminate.
  - vm_compute. discriminate.
  - reflexivity.
  - reflexivity.
Defined.

Lemma get_prop_error (v : Value) (key : string) (e : Thrown) :
  get_prop v key = Throw e -> is_error_with "RATE_LIMIT" e = false.
Proof. destruct v; simpl; intros H; inversion H; reflexivity. Qed.

Lemma get_index_error (v : Value) (i : nat) (e : Thrown) :
  get_index v i = Throw e -> is_error_with "RATE_LIMIT" e = false.
Proof. destruct v; simpl; intros H; inversion H; reflexivity. Qed.

(** The TypeError of a failed property read is never the rate-limit
    marker. *)
Lemma first_text_error (data : Value) (e : Thrown) :
  first_text data = Throw e -> is_error_with "RATE_LIMIT" e = false.
Proof.
  unfold first_text, and_then.
  destruct (get_prop data "candidates") as [v1|e1] eqn:E1;
    [|intros H; injection H as <-; exact (get_prop_error _ _ _ E1)].
  destruct (get_index v1 0) as [v2|e2] eqn:E2;
    [|intros H; injection H as <-; exact (get_index_error _ _ _ E2)].
  destruct (get_prop v2 "content") as [v3|e3] eqn:E3;
    [|intros H; injection H as <-; exact (get_prop_error _ _ _ E3)].
  destruct (get_prop v3 "parts") as [v4|e4] eqn:E4;
    [|intros H; injection H as <-; exact (get_prop_error _ _ _ E4)].
  destruct (get_index v4 0) as [v5|e5] eqn:E5;
    [|intros H; injection H as <-; exact (get_index_error _ _ _ E5)].
  apply get_prop_error.
Qed.

(** X12. The two revisions do the same thing on the plain path: when no
    context has the selected id and the first call is answered with a
    success status and a truthy JSON body, both send the same request and
    leave the same store and the same trace. *)
Theorem revisions_agree_on_first_answer (ep : Endpoint) (s : State)
        (r : Response) (data : Value) :
  (forall c, In c (contexts s) -> Context.id c <> selectedContext s) ->
  ep 0 (request_of s) = Resolved r ->
  ok r = true ->
  json r = Resolved data ->
  truthy data = true ->
  Part000.request_of s = request_of s
  /\ Part000.run_handleSend ep s = run_handleSend ep s.
Proof.
  intros Hnone Hep Hok Hjson Htruthy.
  assert (Part000.request_of s = request_of s) as Hreq.
  { unfold Part000.request_of, request_of, Part000.prompt_of, prompt_of.
    rewrite (@find_selected_none _ _ Hnone). reflexivity. }
  split; [exact Hreq|].
  destruct (run_cases ep s)
    as [[Hb H] | [(Hb & Hk & H) | (Hb & Hkey & _)]].
  - rewrite H. unfold Part000.run_handleSend, Part000.handleSend.
    rewrite Hb. reflexivity.
  - rewrite H. unfold Part000.run_handleSend, Part000.handleSend.
    rewrite Hb, Hk. reflexivity.
  - assert (response_outcome (ep 0 (request_of s)) = Ok data) as Hout.
    { rewrite Hep. unfold response_outcome. rewrite Hjson, Hok. reflexivity. }
    rewrite (single_call_body ep s data Hb Hkey Hout).
    rewrite (earlier_run ep s Hb Hkey), Hreq, Hep.
    unfold Part000.outcome, verdict. rewrite Hok, Hjson, Htruthy.
    destruct (first_text data) as [text|e] eqn:Htext; simpl; [reflexivity|].
    apply first_text_error in Htext.
    unfold Part000.error_toast, error_toast.
    destruct e as [kind message|v]; [|reflexivity].
    simpl in Htext. rewrite Htext. reflexivity.
Qed.

Lemma revisions_agree_on_first_answer_witness :
  Part000.run_handleSend (fun _ _ => http 200 "OK" (reply_body "hi")) asking
  = run_handleSend (fun _ _ => http 200 "OK" (reply_body "hi")) asking.
Proof.
  destruct (revisions_agree_on_first_answer
              (fun _ _ => http 200 "OK" (reply_body "hi")) asking
              (mkResponse 200 "OK" (Resolved (reply_body "hi")))
              (reply_body "hi")) as [_ H].
  - intros c [].
  - reflexivity.
  - reflexivity.
  - reflexivity.
  - reflexivity.
  - exact H.
Defined.

(* ===================================================================== *)
(** ** Every drop *)
(* ===================================================================== *)

(** The loop over the files: it appends the accepted contexts, logs each,
    reads the clock once per context, and ends in the rejection of the
    first unreadable file if there is one. *)
Lemma onDrop_files_world (now : Clock) (files : list File) :
  forall w,
    onDrop_files now files w
    = (match first_unreadable files with
       | None => Ok tt
       | Some e => Throw e
       end,
       mkWorld
         (mkState (messages (ui w))
                  (contexts (ui w) ++ accepted now (clock_reads w) files)%list
                  (selectedContext (ui w)) (input (ui w)) (isLoading (ui w))
                  (apiKey (ui w)))
         (trace w ++ map (EConsoleLog "Added context:")
                         (accepted now (clock_reads w) files))%list
         (clock_reads w + length (accepted now (clock_reads w) files))).
Proof.
  induction files as [|file rest IH]; intros w.
  - simpl. rewrite !app_nil_r, Nat.add_0_r. destruct w as [[] ? ?]. reflexivity.
  - simpl. unfold bind at 1.
    destruct (file_text file) as [text|e]; simpl.
    + unfold bind. simpl. rewrite IH. simpl.
      rewrite <- !app_assoc, Nat.add_succ_r. reflexivity.
    + rewrite !app_nil_r, Nat.add_0_r. destruct w as [[] ? ?]. reflexivity.
Qed.

(** The whole handler: the loop, then one toast. Nothing escapes it. *)
Lemma onDrop_world (now : Clock) (files : list File) (w : World) :
  onDrop now files w
  = (Ok tt,
     mkWorld
       (mkState (messages (ui w))
                (contexts (ui w) ++ accepted now (clock_reads w) files)%list
                (selectedContext (ui w)) (input (ui w)) (isLoading (ui w))
                (apiKey (ui w)))
       (trace w ++ map (EConsoleLog "Added context:")
                       (accepted now (clock_reads w) files)
                ++ [EToast match first_unreadable files with
                           | None => upload_succeeded
                           | Some _ => upload_failed
                           end])%list
       (clock_reads w + length (accepted now (clock_reads w) files))).
Proof.
  unfold onDrop, try_catch, bind. rewrite onDrop_files_world.
  destruct (first_unreadable files); simpl;
    unfold toast, emit; simpl; rewrite <- app_assoc; reflexivity.
Qed.

Lemma accepted_readable (now : Clock) (files : list File) :
  Forall readable files ->
  forall k,
    first_unreadable files = None
    /\ map Context.name (accepted now k files) = map file_name files
    /\ map (fun c => Resolved (Context.content c)) (accepted now k files)
       = map file_text files
    /\ ids (accepted now k files)
       = map (fun j => string_of_Z (now j)) (seq k (length files)).
Proof.
  induction 1 as [|file rest [text Htext] _ IH]; intros k; simpl.
  - auto.
  - rewrite Htext. simpl. destruct (IH (S k)) as (H1 & H2 & H3 & H4).
    rewrite H2, H3, H4. auto.
Qed.

Lemma accepted_until_unreadable (now : Clock) (pre post : list File)
      (bad : File) (e : Thrown) :
  Forall readable pre ->
  file_text bad = Rejected e ->
  forall k,
    first_unreadable (pre ++ bad :: post) = Some e
    /\ accepted now k (pre ++ bad :: post) = accepted now k pre.
Proof.
  intros Hpre Hbad.
  induction Hpre as [|file rest [text Htext] _ IH]; intros k; simpl.
  - rewrite Hbad. auto.
  - rewrite Htext. destruct (IH (S k)) as [H1 H2]. rewrite H1, H2. auto.
Qed.

(** X13. A drop of files that can all be read appends one context per
    file, in the order of the files, each with the file's name and its
    whole text and with the clock's reading as id; it logs each context and
    ends with the [Success] toast. Nothing else in the store changes. *)
Theorem drop_of_readable_files (now : Clock) (files : list File) (w : World) :
  Forall readable files ->
  exists added,
    onDrop now files w
    = (Ok tt,
       mkWorld
         (mkState (messages (ui w)) (contexts (ui w) ++ added)%list
                  (selectedContext (ui w)) (input (ui w)) (isLoading (ui w))
                  (apiKey (ui w)))
         (trace w ++ map (EConsoleLog "Added context:") added
                  ++ [EToast upload_succeeded])%list
         (clock_reads w + length files))
    /\ map Context.name added = map file_name files
    /\ map (fun c => Resolved (Context.content c)) added = map file_text files
    /\ ids added
       = map (fun j => string_of_Z (now j)) (seq (clock_reads w) (length files)).
Proof.
  intros Hall.
  destruct (accepted_readable now files Hall (clock_reads w))
    as (Hnone & Hnames & Htexts & Hids).
  exists (accepted now (clock_reads w) files).
  rewrite onDrop_world, Hnone.
  assert (length (accepted now (clock_reads w) files) = length files) as ->.
  { rewrite <- (length_map Context.name), Hnames, length_map. reflexivity. }
  auto.
Qed.

Lemma drop_of_readable_files_witness :
  contexts (ui (snd (onDrop ticking two_files (mkWorld initial_state [] 0))))
  = [Context.make "10" "a.txt" "first"; Context.make "11" "b.txt" "second"].
Proof.
  destruct (drop_of_readable_files ticking two_files
              (mkWorld initial_state [] 0)) as (added & Hrun & _).
  - repeat constructor; eexists; reflexivity.
  - rewrite Hrun. vm_compute in Hrun. injection Hrun as Hc _.
    simpl. rewrite <- Hc. reflexivity.
Defined.

(** X14. A drop stops at the first file whose text cannot be read: the
    contexts of the files before it stay in the collection, the files after
    it are never looked at, and the drop ends with the destructive
    [Failed to upload documents] toast instead of the [Success] toast. *)
Theorem drop_stops_at_unreadable_file (now : Clock) (pre post : list File)
        (bad : File) (e : Thrown) (w : World) :
  Forall readable pre ->
  file_text bad = Rejected e ->
  exists added,
    onDrop now (pre ++ bad :: post) w
    = (Ok tt,
       mkWorld
         (mkState (messages (ui w)) (contexts (ui w) ++ added)%list
                  (selectedContext (ui w)) (input (ui w)) (isLoading (ui w))
                  (apiKey (ui w)))
         (trace w ++ map (EConsoleLog "Added context:") added
                  ++ [EToast upload_failed])%list
         (clock_reads w + length pre))
    /\ map Context.name added = map file_name pre
    /\ map (fun c => Resolved (Context.content c)) added = map file_text pre.
Proof.
  intros Hpre Hbad.
  destruct (accepted_until_unreadable now pre post bad e Hpre Hbad (clock_reads w))
    as [Hsome Hacc].
  destruct (accepted_readable now pre Hpre (clock_reads w))
    as (_ & Hnames & Htexts & _).
  exists (accepted now (clock_reads w) pre).
  rewrite onDrop_world, Hsome, Hacc.
  assert (length (accepted now (clock_reads w) pre) = length pre) as ->.
  { rewrite <- (length_map Context.name), Hnames, length_map. reflexivity. }
  auto.
Qed.

Lemma drop_stops_at_unreadable_file_witness :
  contexts (ui (snd (onDrop ticking
     ([mkFile "a.txt" (Resolved "first")]
      ++ mkFile "b.pdf" (Rejected (JsError PlainError "unreadable"))
      :: [mkFile "c.txt" (Resolved "third")])
     (mkWorld initial_state [] 0))))
  = [Context.make "10" "a.txt" "first"].
Proof.
  destruct (drop_stops_at_unreadable_file ticking
              [mkFile "a.txt" (Resolved "first")]
              [mkFile "c.txt" (Resolved "third")]
              (mkFile "b.pdf" (Rejected (JsError PlainError "unreadable")))
              (JsError PlainError "unreadable")
              (mkWorld initial_state [] 0)) as (added & Hrun & _).
  - repeat constructor; eexists; reflexivity.
  - reflexivity.
  - vm_compute. reflexivity.
Defined.

(** X15. No drop makes a network call or waits, shows more than its one
    toast, lets an error escape, or touches the transcript, the selection,
    the input, the loading flag or the key; the contexts that were there
    stay where they were, and at most one context per file is appended. *)
Theorem drop_frame (now : Clock) (files : list File) (w : World) :
  fst (onDrop now files w) = Ok tt
  /\ messages (ui (snd (onDrop now files w))) = messages (ui w)
  /\ selectedContext (ui (snd (onDrop now files w))) = selectedContext (ui w)
  /\ input (ui (snd (onDrop now files w))) = input (ui w)
  /\ isLoading (ui (snd (onDrop now files w))) = isLoading (ui w)
  /\ apiKey (ui (snd (onDrop now files w))) = apiKey (ui w)
  /\ count_fetch (trace (snd (onDrop now files w))) = count_fetch (trace w)
  /\ total_wait (trace (snd (onDrop now files w))) = total_wait (trace w)
  /\ length (toasts (trace (snd (onDrop now files w))))
     = S (length (toasts (trace w)))
  /\ exists added,
       contexts (ui (snd (onDrop now files w))) = (contexts (ui w) ++ added)%list
       /\ length added <= length files.
Proof.
  rewrite onDrop_world. cbn [fst snd ui trace messages selectedContext input
                            isLoading apiKey contexts].
  assert (forall l : list Context,
             count_fetch (map (EConsoleLog "Added context:") l) = 0
             /\ total_wait (map (EConsoleLog "Added context:") l) = 0%Z
             /\ toasts (map (EConsoleLog "Added context:") l) = []) as Hlogs.
  { induction l as [|c l (H1 & H2 & H3)]; simpl; auto. }
  destruct (Hlogs (accepted now (clock_reads w) files)) as (H1 & H2 & H3).
  rewrite !count_fetch_app, !total_wait_app, !toasts_app, H1, H2, H3.
  rewrite length_app. simpl.
  repeat split; try lia.
  exists (accepted now (clock_reads w) files). split; [reflexivity|].
  clear. generalize (clock_reads w).
  induction files as [|f rest IH]; intros k; simpl; [lia|].
  destruct (file_text f); simpl; [specialize (IH (S k))|]; lia.
Qed.

(* ===================================================================== *)
(** ** Every reachable page *)
(* ===================================================================== *)

(** The store a run leaves: the one it found, or the submitted one with
    no reply or with one assistant message. *)
Lemma run_store (ep : Endpoint) (s : State) :
  ui (snd (run_handleSend ep s)) = s
  \/ (nonempty (trim (input s)) = true
      /\ (ui (snd (run_handleSend ep s)) = submitted s []
          \/ exists text,
               ui (snd (run_handleSend ep s))
               = submitted s [Message.make assistant text])).
Proof.
  destruct (run_cases ep s)
    as [[_ H] | [(_ & _ & H) | (Hin & _ & k & _ & H & _)]]; rewrite H; cbn [snd].
  - left. reflexivity.
  - left. reflexivity.
  - right. split; [exact Hin|]. rewrite ui_settle.
    destruct (verdict _) as [text|e]; eauto.
Qed.

Lemma turns_app_user (l : list Message) (m : Message) :
  Message.role m = user ->
  forall b, turns b (l ++ [m])%list = turns b l.
Proof.
  intros Hm. induction l as [|x l IH]; intros b; simpl.
  - rewrite Hm. reflexivity.
  - destruct (Message.role x); rewrite IH; reflexivity.
Qed.

Lemma turns_app_exchange (l : list Message) (u a : Message) :
  Message.role u = user -> Message.role a = assistant ->
  forall b, turns b (l ++ [u; a])%list = turns b l.
Proof.
  intros Hu Ha. induction l as [|x l IH]; intros b; simpl.
  - rewrite Hu, Ha. reflexivity.
  - destruct (Message.role x); rewrite IH; reflexivity.
Qed.

Lemma accepted_ids_seq (now : Clock) (files : list File) :
  forall k,
    ids (accepted now k files)
    = map (fun j => string_of_Z (now j)) (seq k (length (accepted now k files))).
Proof.
  induction files as [|f rest IH]; intros k; simpl; [reflexivity|].
  destruct (file_text f); simpl; [|reflexivity].
  rewrite <- IH. reflexivity.
Qed.

Lemma said_user (s : State) :
  said_something (userMessage s) = nonempty (trim (input s)).
Proof. reflexivity. Qed.

(** What every handler keeps. *)
Lemma reachable_invariant (now : Clock) (w : World) :
  reachable now w ->
  In (selectedContext (ui w)) (select_values (ui w))
  /\ turns false (messages (ui w)) = true
  /\ forallb said_something (messages (ui w)) = true
  /\ ids (contexts (ui w))
     = map (fun j => string_of_Z (now j)) (seq 0 (clock_reads w)).
Proof.
  induction 1 as [|a w Hreach (Hsel & Hturns & Hsaid & Hids) Hpos].
  - simpl. auto.
  - destruct a as [text | text | value | files | ep]; simpl in Hpos.
    + simpl. auto.
    + simpl. auto.
    + simpl. auto.
    + unfold handle. rewrite onDrop_world. cbn [snd ui clock_reads messages
        contexts selectedContext].
      repeat split; auto.
      * unfold select_values in *. simpl in *.
        destruct Hsel as [Hsel | Hsel]; [left; exact Hsel|].
        right. rewrite map_app. apply in_or_app. left. exact Hsel.
      * unfold ids in *. rewrite map_app, Hids, seq_app, map_app.
        f_equal. apply accepted_ids_seq.
    + unfold handle. cbn [ui clock_reads].
      destruct (run_store ep (ui w)) as [E | [Hin [E | [text E]]]]; rewrite E.
      * auto.
      * cbn [submitted messages contexts selectedContext].
        repeat split; auto.
        -- rewrite turns_app_user; auto.
        -- rewrite forallb_app, Hsaid. cbn [forallb].
           rewrite said_user, Hin. reflexivity.
      * cbn [submitted messages contexts selectedContext].
        repeat split; auto.
        -- rewrite turns_app_exchange; auto.
        -- rewrite forallb_app, Hsaid. cbn [forallb].
           rewrite said_user, Hin. reflexivity.
Qed.

Lemma session_reachable : reachable ticking (play ticking session).
Proof.
  unfold play, session. cbn [fold_left].
  repeat (apply reach_handle;
          [| first [exact I | vm_compute; auto 10]]).
  apply reach_mount.
Qed.

(** X16. On every page a user can reach, the selection is the
    [no-context] value or the id of a context in the collection: contexts
    are never removed, so a picked context never goes stale, and whenever
    something other than [no-context] is selected the prompt is the
    template filled with the text of a context that has the selected id. *)
Theorem selection_never_stale (now : Clock) (w : World) :
  reachable now w ->
  In (selectedContext (ui w)) (select_values (ui w))
  /\ (selectedContext (ui w) <> "no-context" ->
      exists ctx,
        In ctx (contexts (ui w))
        /\ Context.id ctx = selectedContext (ui w)
        /\ prompt_of (ui w)
           = grounded_prompt (Context.content ctx) (input (ui w))).
Proof.
  intros Hreach.
  destruct (reachable_invariant now w Hreach) as (Hsel & _).
  split; [exact Hsel|].
  intros Hne. destruct Hsel as [Hsel | Hsel]; [congruence|].
  apply in_map_iff in Hsel as (c & Hid & Hin).
  destruct (@find_selected_some (selectedContext (ui w)) (contexts (ui w)))
    as (ctx & Hfind & Hin' & Hid'); [eauto|].
  exists ctx. repeat split; auto.
  unfold prompt_of. rewrite Hfind.
  apply String.eqb_neq in Hne. rewrite Hne. reflexivity.
Qed.

Lemma selection_never_stale_witness :
  exists ctx,
    In ctx (contexts (ui (play ticking session)))
    /\ Context.id ctx = selectedContext (ui (play ticking session))
    /\ prompt_of (ui (play ticking session))
       = grounded_prompt (Context.content ctx) (input (ui (play ticking session))).
Proof.
  destruct (selection_never_stale ticking (play ticking session)
              session_reachable) as [_ H].
  apply H. vm_compute. discriminate.
Defined.

(** X17. On every page a user can reach, every assistant message in the
    transcript directly follows a user message, and every user message is
    a text with something other than white space in it. *)
Theorem transcript_alternates (now : Clock) (w : World) :
  reachable now w ->
  turns false (messages (ui w)) = true
  /\ forallb said_something (messages (ui w)) = true.
Proof.
  intros Hreach.
  destruct (reachable_invariant now w Hreach) as (_ & Ht & Hs & _). auto.
Qed.

Lemma transcript_alternates_witness :
  turns false (messages (ui (play ticking session))) = true
  /\ forallb said_something (messages (ui (play ticking session))) = true.
Proof.
  exact (transcript_alternates ticking (play ticking session) session_reachable).
Defined.

(** X18. On every page a user can reach, the context ids are the clock's
    readings in the order they were taken, one reading per context; so if
    the clock never shows the same value twice, the ids are pairwise
    distinct. *)
Theorem ids_follow_the_clock (now : Clock) (w : World) :
  reachable now w ->
  ids (contexts (ui w))
  = map (fun j => string_of_Z (now j)) (seq 0 (clock_reads w))
  /\ length (contexts (ui w)) = clock_reads w
  /\ ((forall i j, now i = now j -> i = j) -> NoDup (ids (contexts (ui w)))).
Proof.
  intros Hreach.
  destruct (reachable_invariant now w Hreach) as (_ & _ & _ & Hids).
  split; [exact Hids|]. split.
  - unfold ids in Hids.
    rewrite <- (length_map Context.id), Hids, length_map, length_seq.
    reflexivity.
  - intros Hinj. rewrite Hids.
    apply NoDup_map_NoDup_ForallPairs; [|apply seq_NoDup].
    intros i j _ _ E. apply string_of_Z_inj in E. auto.
Qed.

Lemma ids_follow_the_clock_witness :
  NoDup (ids (contexts (ui (play ticking session)))).
Proof.
  destruct (ids_follow_the_clock ticking (play ticking session)
              session_reachable) as (_ & _ & H).
  apply H. intros i j E. unfold ticking in E. lia.
Defined.
